(** * bugtracker: the data-access layer and its middleware

    A shallow embedding of [database.js] (user operations, pagination,
    [getSortOptions], [newId]) and of the [validId] / [validBody] middleware,
    with the properties the specification states about them.

    Conventions of the embedding.
    - JavaScript values are the inductive [value]; documents (plain objects
      with string keys) are finite maps [gmap string value]; an object whose
      key order is observable (the sort specification) is an association
      list in insertion order.
    - [number] holds NaN, the two infinities and the finite values, exactly;
      arithmetic and [parseInt] round to the nearest double.  Strings are
      held in UTF-8.
    - [async] functions are run to completion one after the other: a
      computation is a function from the state of the process ([World]) to a
      result (a value or a thrown error) and the next state.
    - The MongoDB driver, the server's query evaluation and Joi are the
      environment.  What the code calls is gathered in the classes [Driver]
      and [Joi.Schema]; what a property assumes of them is a hypothesis of
      its statement, and a small concrete instance of each class is given to
      evaluate the definitions on examples. *)

From Stdlib Require Import ZArith Lia Ascii String.
From stdpp Require Import gmap strings list fin_maps pretty.

Local Open Scope string_scope.
Local Open Scope list_scope.
Local Open Scope Z_scope.

(** * Part I: the embedding *)

(** ** JavaScript values *)

Module Js.

(** Numbers.  A number is a double (IEEE 754 binary64): NaN, an infinity, or
    a finite value, which is held exactly: an integer as [Fin z], any other
    value as [Frac m e], the fraction [m / 2^e] with [m] odd.  Every double
    has one such form.  The type has room for values that are no doubles
    (an integer of more than 53 significant bits, say); arithmetic rounds
    its result to a double, so no operation yields one. *)
Inductive number :=
| NaN
| Infinity (negative : bool)
| Fin (z : Z)
| Frac (m : Z) (e : positive).

(** A [Date]: either Invalid Date, or a local calendar day (days since the
    epoch) and the milliseconds elapsed within that day.  The time zone is
    not modelled: local time is taken as UTC. *)
Inductive date :=
| InvalidDate
| At (day : Z) (ms : Z).

(** An [ObjectId], by its 24-character lowercase hexadecimal rendering. *)
Record ObjectId := { toHexString : string }.

Inductive value :=
| VUndefined
| VNull
| VBool (b : bool)
| VNum (n : number)
| VStr (s : string)
| VDate (d : date)
| VId (o : ObjectId).

#[global] Instance number_eq_dec : EqDecision number.
Proof. solve_decision. Defined.
#[global] Instance date_eq_dec : EqDecision date.
Proof. solve_decision. Defined.
#[global] Instance ObjectId_eq_dec : EqDecision ObjectId.
Proof. solve_decision. Defined.
#[global] Instance value_eq_dec : EqDecision value.
Proof. solve_decision. Defined.

Inductive type_tag := TUndefined | TObject | TBoolean | TNumber | TString.

(** [typeof v] *)
Definition typeof (v : value) : type_tag :=
  match v with
  | VUndefined => TUndefined
  | VNull => TObject
  | VBool _ => TBoolean
  | VNum _ => TNumber
  | VStr _ => TString
  | VDate _ => TObject
  | VId _ => TObject
  end.

(** [typeof v === 'number'] and [typeof v === 'string'] *)
Definition is_number (v : value) : bool :=
  match typeof v with TNumber => true | _ => false end.

Definition is_string (v : value) : bool :=
  match typeof v with TString => true | _ => false end.

(** ToBoolean: what [if (v)], [!v] and [v || w] test. *)
Definition truthy (v : value) : bool :=
  match v with
  | VUndefined | VNull => false
  | VBool b => b
  | VNum NaN => false
  | VNum (Infinity _) => true
  | VNum (Fin z) => negb (z =? 0)
  | VNum (Frac m _) => negb (m =? 0)
  | VStr s => negb (String.eqb s "")
  | VDate _ | VId _ => true
  end.

(** [v === 'literal'] *)
Definition strict_eq_str (v : value) (lit : string) : bool :=
  match v with
  | VStr s => String.eqb s lit
  | _ => false
  end.

(** [n > 0] *)
Definition num_gt0 (n : number) : bool :=
  match n with
  | NaN => false
  | Infinity negative => negb negative
  | Fin z => 0 <? z
  | Frac m _ => 0 <? m
  end.

(** [v > 0] for a value already known to be a number (the right operand of
    [typeof v === 'number' && v > 0]). *)
Definition gt0 (v : value) : bool :=
  match v with
  | VNum n => num_gt0 n
  | _ => false
  end.

(** *** Rounding to a double *)

Fixpoint pos_trailing_zeros (p : positive) : Z :=
  match p with
  | xO p' => 1 + pos_trailing_zeros p'
  | _ => 0
  end.

(** The number of times 2 divides [m]. *)
Definition trailing_zeros (m : Z) : Z :=
  match m with
  | Z0 => 0
  | Zpos p | Zneg p => pos_trailing_zeros p
  end.

(** The value [m * 2^e], in its one form. *)
Definition make_number (m e : Z) : number :=
  if 0 <=? e then Fin (m * 2 ^ e)
  else if m mod 2 ^ (- e) =? 0 then Fin (m / 2 ^ (- e))
  else let t := trailing_zeros m in Frac (m / 2 ^ t) (Z.to_pos (- e - t)).

(** [floor (log2 (a / d))], for positive [a] and [d]. *)
Definition log2_ratio (a d : Z) : Z :=
  let est := Z.log2 a - Z.log2 d in
  if a * 2 ^ Z.max 0 (- est) <? d * 2 ^ Z.max 0 est then est - 1 else est.

(** The integer nearest to [a / d], the even one of two that are equally
    near. *)
Definition nearest_even (a d : Z) : Z :=
  let q := a / d in
  let r := a mod d in
  if (d <? 2 * r) || ((2 * r =? d) && Z.odd q) then q + 1 else q.

(** The double nearest to the rational [n / d] (with [d > 0]), to even on a
    tie: the significand has 53 bits, the unit in the last place is at least
    [2^-1074], and a magnitude that rounds to [2^1024] or more is an
    infinity.  The sign of a zero is not kept: the code has no operation
    that tells -0 from 0. *)
Definition to_number (n d : Z) : number :=
  let a := Z.abs n in
  if a =? 0 then Fin 0
  else
    let u := Z.max (log2_ratio a d - 52) (-1074) in
    let q := nearest_even (a * 2 ^ Z.max 0 (- u)) (d * 2 ^ Z.max 0 u) in
    if 1024 <? Z.log2 q + 1 + u then Infinity (n <? 0)
    else make_number (Z.sgn n * q) u.

(** A finite number as a fraction, numerator and denominator. *)
Definition fraction (x : number) : Z * Z :=
  match x with
  | Fin z => (z, 1)
  | Frac m e => (m, 2 ^ Z.pos e)
  | _ => (0, 1)
  end.

(** [a - b] *)
Definition num_sub (a b : number) : number :=
  match a, b with
  | NaN, _ | _, NaN => NaN
  | Infinity s, Infinity s' => if Bool.eqb s s' then NaN else Infinity s
  | Infinity s, _ => Infinity s
  | _, Infinity s => Infinity (negb s)
  | Fin x, Fin y => to_number (x - y) 1
  | _, _ =>
      let '(n1, d1) := fraction a in
      let '(n2, d2) := fraction b in
      to_number (n1 * d2 - n2 * d1) (d1 * d2)
  end.

(** [a * b] *)
Definition num_mul (a b : number) : number :=
  match a, b with
  | NaN, _ | _, NaN => NaN
  | Infinity s, Infinity s' => Infinity (xorb s s')
  | Infinity s, x | x, Infinity s =>
      let '(n, _) := fraction x in
      if n =? 0 then NaN else Infinity (xorb s (n <? 0))
  | Fin x, Fin y => to_number (x * y) 1
  | _, _ =>
      let '(n1, d1) := fraction a in
      let '(n2, d2) := fraction b in
      to_number (n1 * n2) (d1 * d2)
  end.

(** [Math.ceil(a / b)].  The two operations are embedded together, on the
    exact quotient.  The code divides a count of documents by a page size
    that [parseInt] made: a non-zero integer or an infinity.  For a count
    below 2^53 the rounding of the quotient to a double does not change its
    ceiling, since a quotient that is no integer lies further from the
    integer below it than half a unit in the last place. *)
Definition ceil_div (a b : number) : number :=
  match a, b with
  | NaN, _ | _, NaN => NaN
  | Infinity _, Infinity _ => NaN
  | Infinity s, x => let '(n, _) := fraction x in Infinity (xorb s (n <? 0))
  | _, Infinity _ => Fin 0
  | Fin x, Fin y =>
      if y =? 0 then (if x =? 0 then NaN else Infinity (x <? 0))
      else Fin (- ((- x) / y))
  | _, _ =>
      let '(n1, d1) := fraction a in
      let '(n2, d2) := fraction b in
      if n2 =? 0 then (if n1 =? 0 then NaN else Infinity (n1 <? 0))
      else Fin (- ((- (n1 * d2)) / (n2 * d1)))
  end.

(** [n || fallback] on numbers *)
Definition num_or (n fallback : number) : number :=
  if truthy (VNum n) then n else fallback.

(** *** Strings

    A string is held in UTF-8, one [ascii] for each byte, which is how a
    literal of this file is read. *)

Definition byte (c : ascii) : Z := Z.of_nat (nat_of_ascii c).

(** The white space that [trim] and [parseInt] skip (WhiteSpace and
    LineTerminator of ECMAScript), by the length of its encoding.  One byte:
    TAB, LF, VT, FF, CR and the space. *)
Definition is_white_space (c : ascii) : bool :=
  let n := byte c in
  ((9 <=? n) && (n <=? 13)) || (n =? 32).

(** Two bytes: U+00A0, the no-break space. *)
Definition is_white_space_2 (a b : ascii) : bool :=
  (byte a =? 194) && (byte b =? 160).

(** Three bytes: U+1680; U+2000 to U+200A, the line separator U+2028, the
    paragraph separator U+2029 and U+202F; U+205F; U+3000; and the byte
    order mark U+FEFF. *)
Definition is_white_space_3 (a b c : ascii) : bool :=
  let x := byte a in
  let y := byte b in
  let z := byte c in
  ((x =? 225) && (y =? 154) && (z =? 128))
  || ((x =? 226) && (y =? 128)
      && (((128 <=? z) && (z <=? 138)) || (z =? 168) || (z =? 169) || (z =? 175)))
  || ((x =? 226) && (y =? 129) && (z =? 159))
  || ((x =? 227) && (y =? 128) && (z =? 128))
  || ((x =? 239) && (y =? 187) && (z =? 191)).

(** What follows the white space character a string starts with, if it
    starts with one. *)
Definition skip_white_space (s : string) : option string :=
  match s with
  | EmptyString => None
  | String a r1 =>
      if is_white_space a then Some r1
      else
        match r1 with
        | EmptyString => None
        | String b r2 =>
            if is_white_space_2 a b then Some r2
            else
              match r2 with
              | EmptyString => None
              | String c r3 => if is_white_space_3 a b c then Some r3 else None
              end
        end
  end.

(** Leading white space removed. *)
Fixpoint trim_start (s : string) : string :=
  match s with
  | EmptyString => s
  | String a r1 =>
      if is_white_space a then trim_start r1
      else
        match r1 with
        | EmptyString => s
        | String b r2 =>
            if is_white_space_2 a b then trim_start r2
            else
              match r2 with
              | EmptyString => s
              | String c r3 => if is_white_space_3 a b c then trim_start r3 else s
              end
        end
  end.

(** A string of white space only. *)
Definition all_white_space (s : string) : bool := String.eqb (trim_start s) "".

(** Trailing white space removed: the string is cut where what remains is
    white space only. *)
Fixpoint trim_end (s : string) : string :=
  match s with
  | EmptyString => EmptyString
  | String c rest => if all_white_space s then EmptyString else String c (trim_end rest)
  end.

(** [s.trim()] *)
Definition trim (s : string) : string := trim_end (trim_start s).

Definition lower_ascii (c : ascii) : ascii :=
  let n := nat_of_ascii c in
  if ((65 <=? n) && (n <=? 90))%nat then ascii_of_nat (n + 32) else c.

(** [s.toLowerCase()], for a string of ASCII characters: the letters A to Z
    are lowered.  Characters outside ASCII are left as they are, which is
    not what the method does to the capital letters among them; the
    properties that lower a string they do not fix assume it is ASCII. *)
Fixpoint toLowerCase (s : string) : string :=
  match s with
  | String c rest => String (lower_ascii c) (toLowerCase rest)
  | EmptyString => EmptyString
  end.

(** The value of a character as a digit, up to base 36. *)
Definition digit_value (c : ascii) : option Z :=
  let n := byte c in
  if (48 <=? n) && (n <=? 57) then Some (n - 48)
  else if (97 <=? n) && (n <=? 122) then Some (n - 87)
  else if (65 <=? n) && (n <=? 90) then Some (n - 55)
  else None.

(** The longest prefix of digits of the radix, as an integer; [acc] is the
    value read so far, [None] when no digit has been read. *)
Fixpoint parse_digits (radix : Z) (s : string) (acc : option Z) : option Z :=
  match s with
  | EmptyString => acc
  | String c rest =>
      match digit_value c with
      | Some d =>
          if d <? radix
          then parse_digits radix rest (Some (default 0 acc * radix + d))
          else acc
      | None => acc
      end
  end.

(** An optional sign in front. *)
Definition read_sign (s : string) : Z * string :=
  match s with
  | String "-" rest => (-1, rest)
  | String "+" rest => (1, rest)
  | _ => (1, s)
  end.

(** With no radix argument the base is 10, unless the digits start with
    [0x] or [0X], which selects 16. *)
Definition read_radix (s : string) : Z * string :=
  match s with
  | String "0" (String "x" rest) | String "0" (String "X" rest) => (16, rest)
  | _ => (10, s)
  end.

(** [parseInt(string)] with no radix argument: white space, sign, radix
    prefix, then digits; the integer they denote is rounded to a double. *)
Definition parseInt_string (input : string) : number :=
  let s := trim_start input in
  let '(sign, s) := read_sign s in
  let '(radix, s) := read_radix s in
  match parse_digits radix s None with
  | None => NaN
  | Some n => to_number (sign * n) 1
  end.

(** *** Number::toString *)

Fixpoint decade_below (fuel : nat) (n d : Z) : Z :=
  match fuel with
  | O => 0
  | S fuel' => if d <=? n * 10 then 0 else decade_below fuel' (n * 10) d - 1
  end.

(** The [k] with [10^(k-1) <= n / d < 10^k], for positive [n] and [d]. *)
Definition decade (n d : Z) : Z :=
  if d <=? n then Z.of_nat (String.length (pretty (n / d)))
  else decade_below (Z.to_nat (Z.log2 d + 1)) n d.

(** Whether [s * 10^x] is a decimal of the number: it rounds to it. *)
Definition rounds_to (s x : Z) (target : number) : bool :=
  bool_decide (to_number (s * 10 ^ Z.max 0 x) (10 ^ Z.max 0 (- x)) = target).

(** The shortest decimal of the positive number [n / d]: the integer [s] of
    [k] digits and the position [p] of the decimal point such that
    [s * 10^(p - k)] rounds to the number, with [k] as small as can be and,
    among those, [s * 10^(p - k)] nearest to the number.  Seventeen digits
    always suffice. *)
Fixpoint shortest_digits (fuel : nat) (k : Z) (n d p : Z) (target : number) : Z * Z :=
  let num := n * 10 ^ Z.max 0 (k - p) in
  let den := d * 10 ^ Z.max 0 (p - k) in
  let lo := num / den in
  let r := num mod den in
  let hi := lo + 1 in
  let lo_nearer := (2 * r <? den) || ((2 * r =? den) && Z.even lo) in
  let above := if hi =? 10 ^ k then (1, p + 1) else (hi, p) in
  match rounds_to lo (p - k) target, rounds_to hi (p - k) target, fuel with
  | true, true, _ => if lo_nearer then (lo, p) else above
  | true, false, _ => (lo, p)
  | false, true, _ => above
  | false, false, S fuel' => shortest_digits fuel' (k + 1) n d p target
  | false, false, O => (lo, p)
  end.

Fixpoint zeros (n : nat) : string :=
  match n with
  | O => ""
  | S n' => String "0" (zeros n')
  end.

Fixpoint strip_zeros (s : string) : string :=
  match s with
  | String "0" rest => strip_zeros rest
  | _ => s
  end.

(** The rendering of the digits [s] with the decimal point at position [p]:
    plain up to 21 digits before the point and 6 zeros after it, in
    exponent notation beyond. *)
Definition render (s p : Z) : string :=
  let digits := String.rev (strip_zeros (String.rev (pretty s))) in
  let k := Z.of_nat (String.length digits) in
  if (k <=? p) && (p <=? 21) then digits +:+ zeros (Z.to_nat (p - k))
  else if (0 <? p) && (p <=? 21) then
    substring 0 (Z.to_nat p) digits +:+ "."
      +:+ substring (Z.to_nat p) (Z.to_nat (k - p)) digits
  else if (-6 <? p) && (p <=? 0) then "0." +:+ zeros (Z.to_nat (- p)) +:+ digits
  else
    let e := p - 1 in
    let exponent := (if e <? 0 then "e-" else "e+") +:+ pretty (Z.abs e) in
    match digits with
    | String d EmptyString => String d exponent
    | String d rest => String d ("." +:+ rest) +:+ exponent
    | EmptyString => exponent
    end.

Definition number_to_string (x : number) : string :=
  match x with
  | NaN => "NaN"
  | Infinity false => "Infinity"
  | Infinity true => "-Infinity"
  | Fin 0 => "0"
  | _ =>
      let '(n, d) := fraction x in
      let a := Z.abs n in
      let '(s, p) := shortest_digits 20 1 a d (decade a d) (to_number a d) in
      (if n <? 0 then "-" else "") +:+ render s p
  end.

(** [parseInt(v)]: the argument is converted to a string first.  The
    rendering of a Date starts with the name of a weekday, or is
    ["Invalid Date"]; either way there is no digit to read. *)
Definition parseInt (v : value) : number :=
  match v with
  | VUndefined => parseInt_string "undefined"
  | VNull => parseInt_string "null"
  | VBool b => parseInt_string (if b then "true" else "false")
  | VNum n => parseInt_string (number_to_string n)
  | VStr s => parseInt_string s
  | VDate _ => NaN
  | VId o => parseInt_string (toHexString o)
  end.

(** *** Dates *)

(** TimeClip: a time value further than 8.64e15 ms from the epoch is not a
    date. *)
Definition time_clip (d : date) : date :=
  match d with
  | InvalidDate => InvalidDate
  | At day ms =>
      if Z.abs (day * 86400000 + ms) <=? 8640000000000000 then d else InvalidDate
  end.

(** [d.setHours(0, 0, 0, 0)] *)
Definition setHours_0 (d : date) : date :=
  match d with
  | InvalidDate => InvalidDate
  | At day _ => time_clip (At day 0)
  end.

(** The day of the month (1 to 31) of a calendar day, in the proleptic
    Gregorian calendar. *)
Definition day_of_month (day : Z) : Z :=
  let z := day + 719468 in
  let era := z / 146097 in
  let doe := z - era * 146097 in
  let yoe := (doe - doe / 1460 + doe / 36524 - doe / 146096) / 365 in
  let doy := doe - (365 * yoe + yoe / 4 - yoe / 100) in
  let mp := (5 * doy + 2) / 153 in
  doy - (153 * mp + 2) / 5 + 1.

(** [d.getDate()] *)
Definition getDate (d : date) : number :=
  match d with
  | InvalidDate => NaN
  | At day _ => Fin (day_of_month day)
  end.

(** ToIntegerOrInfinity of a finite number: the fraction is dropped, towards
    zero. *)
Definition truncate (n : number) : option Z :=
  match n with
  | Fin k => Some k
  | Frac m e => Some (Z.quot m (2 ^ Z.pos e))
  | _ => None
  end.

(** [d.setDate(n)]: day [n] of the month [d] is in, counted from the first of
    that month, so that 0 and negative numbers reach into earlier months;
    the time of day is kept.  The fraction of [n] is dropped; a NaN or
    infinite argument gives Invalid Date. *)
Definition setDate (d : date) (n : number) : date :=
  match d, truncate n with
  | At day ms, Some k =>
      let first_of_month := day - day_of_month day + 1 in
      time_clip (At (first_of_month + k - 1) ms)
  | _, _ => InvalidDate
  end.

End Js.
Export Js.

(** ** getSortOptions *)

(** The object [sort] of [getSortOptions]: keys in insertion order. *)
Definition sort_spec := list (string * Z).

(** [sort[k] = dir]: an existing key keeps its place, a new one goes last. *)
Fixpoint sort_set (k : string) (dir : Z) (sort : sort_spec) : sort_spec :=
  match sort with
  | [] => [(k, dir)]
  | (k', d') :: rest =>
      if String.eqb k' k then (k', dir) :: rest else (k', d') :: sort_set k dir rest
  end.

Definition getSortOptions (sortBy type : value) : sort_spec :=
  let sort : sort_spec := [] in
  if strict_eq_str type "user" then
    if strict_eq_str sortBy "givenName" then
      sort_set "createdOn" 1 (sort_set "familyName" 1 (sort_set "givenName" 1 sort))
    else if strict_eq_str sortBy "familyName" then
      sort_set "createdOn" 1 (sort_set "givenName" 1 (sort_set "familyName" 1 sort))
    else if strict_eq_str sortBy "role" then
      sort_set "createdOn" 1
        (sort_set "familyName" 1 (sort_set "givenName" 1 (sort_set "role" 1 sort)))
    else if strict_eq_str sortBy "newest" then
      sort_set "createdOn" (-1) sort
    else if strict_eq_str sortBy "oldest" then
      sort_set "createdOn" 1 sort
    else
      sort_set "givenName" 1 sort
  else if strict_eq_str type "bug" then
    if strict_eq_str sortBy "title" then
      sort_set "createdOn" (-1) (sort_set "title" 1 sort)
    else if strict_eq_str sortBy "classification" then
      sort_set "createdOn" (-1) (sort_set "classification" 1 sort)
    else if strict_eq_str sortBy "assignedToName" then
      sort_set "createdOn" (-1) (sort_set "assignedToName" 1 sort)
    else if strict_eq_str sortBy "createdByName" then
      sort_set "createdOn" (-1) (sort_set "createdByName" 1 sort)
    else if strict_eq_str sortBy "newest" then
      sort_set "createdOn" (-1) sort
    else if strict_eq_str sortBy "oldest" then
      sort_set "createdOn" 1 sort
    else
      sort_set "createdOn" (-1) sort
  else sort.

(** The [case] labels of the ['user'] switch. *)
Definition user_sort_keywords : list string :=
  ["givenName"; "familyName"; "role"; "newest"; "oldest"].

Definition is_user_sort_keyword (sortBy : value) : bool :=
  existsb (strict_eq_str sortBy) user_sort_keywords.

(** ** The store *)

(** A document: a plain object with string keys. *)
Abbreviation doc := (gmap string value).

(** [d.k]: a missing property reads as [undefined]. *)
Definition get (k : string) (d : doc) : value := default VUndefined (d !! k).

(** The value of [createdOn] in a filter: [{ $lte, $gte }]. *)
Record created_on_filter := { lte : option date; gte : option date }.

(** One disjunct of [$or]: [{ field: { $regex, $options } }]. *)
Record regex_clause := { field : string; regex : value; options : string }.

(** The object [match] of [GetAllUsers]; an absent key is [None]. *)
Record match_doc := {
  m_or : option (list regex_clause);
  m_role : option value;
  m_createdOn : option created_on_filter;
}.

(** The filters the user operations send. *)
Inductive query :=
| ByEmail (email : value)          (* { email: ... } *)
| ById (_id : ObjectId)            (* { _id: ... } *)
| ByMatch (m : match_doc).

(** What the driver and the server refuse. *)
Inductive failure :=
| InvalidObjectIdInput             (* the ObjectId constructor throws *)
| ConnectionFailed                 (* MongoClient.connect rejects *)
| InvalidSkip                      (* $skip is not a non-negative integer *)
| InvalidLimit                     (* $limit is not a positive integer *)
| UpdateRefused.                   (* the server does not apply the update *)

(** The [mongodb] package and the server behind it, as far as the code calls
    them. *)
Class Driver := {
  (** [ObjectId.isValid(v)] *)
  ObjectId_isValid : value -> bool;
  (** [new ObjectId(v)]; [None] when the constructor throws *)
  ObjectId_new : value -> option ObjectId;
  (** [new ObjectId()]: the identifier made from the process counter *)
  ObjectId_generate : nat -> ObjectId;
  (** whether a document satisfies a filter *)
  matches : query -> doc -> bool;
  (** [$sort] *)
  sort_docs : sort_spec -> list doc -> list doc;
  (** whether the server refuses to apply [$set: fields] to the document it
      matched, as it does when that would change [_id] *)
  refuses_set : doc -> doc -> bool;
  (** the [message] of the error raised on a failure *)
  failure_message : failure -> string;
}.

(** ** Errors and computations *)

Inductive exn :=
| Error (message : string)
| TypeError (message : string)
| ReferenceError (message : string)
| DriverError (f : failure).

(** [err.message] *)
Definition message `{Driver} (err : exn) : string :=
  match err with
  | Error m | TypeError m | ReferenceError m => m
  | DriverError f => failure_message f
  end.

Inductive result (A : Type) :=
| Return (a : A)
| Throw (err : exn).
Arguments Return {A} a.
Arguments Throw {A} err.

(** The state of the process and of the store. *)
Record World := {
  env_DB_URL : option string;      (* process.env.DB_URL *)
  env_DB_NAME : option string;     (* process.env.DB_NAME *)
  reachable : bool;                (* whether the server accepts a connection *)
  clock : date;                    (* what [new Date()] reads *)
  next_id : nat;                   (* the counter [new ObjectId()] draws from *)
  _db : bool;                      (* the module variable: connected or null *)
  Users : list doc;                (* the collection, in natural order *)
  trace : list string;             (* the requests sent to the server *)
}.

Definition set_db (b : bool) (w : World) : World :=
  {| env_DB_URL := env_DB_URL w; env_DB_NAME := env_DB_NAME w;
     reachable := reachable w; clock := clock w; next_id := next_id w;
     _db := b; Users := Users w; trace := trace w |}.

Definition set_Users (us : list doc) (w : World) : World :=
  {| env_DB_URL := env_DB_URL w; env_DB_NAME := env_DB_NAME w;
     reachable := reachable w; clock := clock w; next_id := next_id w;
     _db := _db w; Users := us; trace := trace w |}.

Definition add_trace (op : string) (w : World) : World :=
  {| env_DB_URL := env_DB_URL w; env_DB_NAME := env_DB_NAME w;
     reachable := reachable w; clock := clock w; next_id := next_id w;
     _db := _db w; Users := Users w; trace := trace w ++ [op] |}.

Definition bump_id (w : World) : World :=
  {| env_DB_URL := env_DB_URL w; env_DB_NAME := env_DB_NAME w;
     reachable := reachable w; clock := clock w; next_id := S (next_id w);
     _db := _db w; Users := Users w; trace := trace w |}.

(** A computation: state in, result and state out. *)
Definition M (A : Type) : Type := World -> result A * World.

#[global] Instance M_ret : MRet M := fun A a w => (Return a, w).

#[global] Instance M_bind : MBind M := fun A B k m w =>
  match m w with
  | (Return a, w') => k a w'
  | (Throw err, w') => (Throw err, w')
  end.

Definition throw {A} (err : exn) : M A := fun w => (Throw err, w).

(** [try { m } catch (err) { handler err }] *)
Definition try_catch {A} (m : M A) (handler : exn -> M A) : M A := fun w =>
  match m w with
  | (Throw err, w') => handler err w'
  | r => r
  end.

Definition get_world : M World := fun w => (Return w, w).
Definition modify_world (f : World -> World) : M unit := fun w => (Return tt, f w).
Definition send (op : string) : M unit := modify_world (add_trace op).
Definition lift_result {A} (r : result A) : M A := fun w => (r, w).

(** [new Date()] *)
Definition new_Date : M date := w ← get_world; mret (clock w).

(** *** The Persistence Gateway *)

(** [!process.env.X] *)
Definition env_missing (v : option string) : bool :=
  match v with
  | Some s => String.eqb s ""
  | None => true
  end.

Definition connectToDatabase `{Driver} : M unit :=
  w ← get_world;
  if _db w then mret tt
  else if env_missing (env_DB_URL w)
  then throw (Error "DB_URL is not defined in environment variables")
  else if env_missing (env_DB_NAME w)
  then throw (Error "DB_NAME is not defined in environment variables")
  else
    try_catch
      (send "connect";;
       if reachable w then modify_world (set_db true)
       else throw (DriverError ConnectionFailed))
      (fun err => throw err).

(** *** Collection operations on [Users] *)

Section Collection.
Context `{Driver}.

(** [new ObjectId()] *)
Definition fresh_ObjectId : M ObjectId :=
  w ← get_world; modify_world bump_id;; mret (ObjectId_generate (next_id w)).

(** [new ObjectId(v)] *)
Definition construct_ObjectId (v : value) : result ObjectId :=
  match ObjectId_new v with
  | Some o => Return o
  | None => Throw (DriverError InvalidObjectIdInput)
  end.

(** [{ projection: { k: 0, ... } }] *)
Definition project_out (excluded : list string) (d : doc) : doc :=
  foldr delete d excluded.

(** [db.collection('Users').findOne(filter, { projection })]: the first
    matching document, or [null]. *)
Definition findOne (f : query) (excluded : list string) : M (option doc) :=
  send "findOne";;
  w ← get_world;
  mret (project_out excluded <$> List.find (matches f) (Users w)).

Inductive stage :=
| Match (m : match_doc)
| Sort (s : sort_spec)
| Skip (n : number)
| Limit (n : number).

Definition run_stage (st : stage) (docs : list doc) : result (list doc) :=
  match st with
  | Match m => Return (List.filter (matches (ByMatch m)) docs)
  | Sort s => Return (sort_docs s docs)
  | Skip (Fin z) =>
      if (0 <=? z) && (z <? 2 ^ 63) then Return (drop (Z.to_nat z) docs)
      else Throw (DriverError InvalidSkip)
  | Skip _ => Throw (DriverError InvalidSkip)
  | Limit (Fin z) =>
      if (0 <? z) && (z <? 2 ^ 63) then Return (take (Z.to_nat z) docs)
      else Throw (DriverError InvalidLimit)
  | Limit _ => Throw (DriverError InvalidLimit)
  end.

Fixpoint run_pipeline (pipeline : list stage) (docs : list doc) : result (list doc) :=
  match pipeline with
  | [] => Return docs
  | st :: rest =>
      match run_stage st docs with
      | Return docs' => run_pipeline rest docs'
      | Throw err => Throw err
      end
  end.

(** [db.collection('Users').aggregate(pipeline).toArray()] *)
Definition aggregate (pipeline : list stage) : M (list doc) :=
  send "aggregate";;
  w ← get_world;
  lift_result (run_pipeline pipeline (Users w)).

(** [db.collection('Users').countDocuments(match)] *)
Definition countDocuments (m : match_doc) : M number :=
  send "countDocuments";;
  w ← get_world;
  mret (Fin (Z.of_nat (length (List.filter (matches (ByMatch m)) (Users w))))).

(** What the driver writes for the value of a field: [undefined] goes out as
    null, and an Invalid Date, whose time value is NaN, as the epoch. *)
Definition to_bson (v : value) : value :=
  match v with
  | VUndefined => VNull
  | VDate InvalidDate => VDate (At 0 0)
  | _ => v
  end.

(** [$set]: the listed fields are written, the others kept.  The documents
    are flat, so a key stands for the field of that name; a key with a dot,
    which the server reads as a path into an embedded document, has no
    rendering here. *)
Definition apply_set (fields d : doc) : doc := (to_bson <$> fields) ∪ d.

Fixpoint update_first (p : doc -> bool) (g : doc -> doc) (docs : list doc) : list doc :=
  match docs with
  | [] => []
  | d :: rest => if p d then g d :: rest else d :: update_first p g rest
  end.

Record update_result := { matchedCount : Z; modifiedCount : Z }.

(** [db.collection('Users').updateOne(filter, { $set: fields })].  The
    update of the first matching document is the server's to refuse
    ([refuses_set]); the call then rejects and nothing is written.  What the
    server accepts is written as it is given, [_id] included. *)
Definition updateOne (f : query) (fields : doc) : M update_result :=
  send "updateOne";;
  w ← get_world;
  match List.find (matches f) (Users w) with
  | None => mret {| matchedCount := 0; modifiedCount := 0 |}
  | Some d =>
      if refuses_set fields d then throw (DriverError UpdateRefused)
      else
        modify_world (set_Users (update_first (matches f) (apply_set fields) (Users w)));;
        mret {| matchedCount := 1;
                modifiedCount := if decide (apply_set fields d = d) then 0 else 1 |}
  end.

End Collection.

(** ** database.js *)

Section Database.
Context `{Driver}.

(** *** newId *)

Definition newId (str : value) : result ObjectId :=
  if negb (truthy str) || negb (is_string str) || negb (ObjectId_isValid str)
  then Throw (Error "Invalid ObjectId string")
  else construct_ObjectId str.

(** *** GetAllUsers *)

(** The argument object of [GetAllUsers]; a property left out is
    [VUndefined]. *)
Record list_params := {
  keywords : value;
  role : value;
  maxAge : value;
  minAge : value;
  sortBy : value;
  pageSize : value;
  pageNumber : value;
}.

(** A default in the parameter list ([pageSize = 5]) replaces [undefined]
    only. *)
Definition param_default (v fallback : value) : value :=
  match v with
  | VUndefined => fallback
  | _ => v
  end.

(** ToNumber, for a value already known to be a number (the operand of
    [getDate() - minAge] behind the [typeof] test). *)
Definition as_number (v : value) : number :=
  match v with
  | VNum n => n
  | _ => NaN
  end.

(** The age filter: [createdOnFilter] after the two [if]s. *)
Definition createdOnFilter (today : date) (minAge maxAge : value) : created_on_filter :=
  let createdOnFilter := {| lte := None; gte := None |} in
  let createdOnFilter :=
    if is_number minAge && gt0 minAge then
      let minCreatedDate := today in
      let minCreatedDate :=
        setDate minCreatedDate (num_sub (getDate minCreatedDate) (as_number minAge)) in
      {| lte := Some minCreatedDate; gte := gte createdOnFilter |}
    else createdOnFilter in
  let createdOnFilter :=
    if is_number maxAge && gt0 maxAge then
      let maxCreatedDate := today in
      let maxCreatedDate :=
        setDate maxCreatedDate (num_sub (getDate maxCreatedDate) (as_number maxAge)) in
      {| lte := lte createdOnFilter; gte := Some maxCreatedDate |}
    else createdOnFilter in
  createdOnFilter.

(** [Object.keys(createdOnFilter).length > 0] *)
Definition has_keys (f : created_on_filter) : bool :=
  match lte f, gte f with
  | None, None => false
  | _, _ => true
  end.

(** The object [match], given [today] (the clock at midnight). *)
Definition users_match (today : date) (p : list_params) : match_doc :=
  let m := {| m_or := None; m_role := None; m_createdOn := None |} in
  let m :=
    if truthy (keywords p) then
      {| m_or := Some [ {| field := "givenName"; regex := keywords p; options := "i" |};
                        {| field := "familyName"; regex := keywords p; options := "i" |};
                        {| field := "email"; regex := keywords p; options := "i" |} ];
         m_role := m_role m; m_createdOn := m_createdOn m |}
    else m in
  let m :=
    if truthy (role p) then
      {| m_or := m_or m; m_role := Some (role p); m_createdOn := m_createdOn m |}
    else m in
  let createdOnFilter := createdOnFilter today (minAge p) (maxAge p) in
  let m :=
    if has_keys createdOnFilter then
      {| m_or := m_or m; m_role := m_role m; m_createdOn := Some createdOnFilter |}
    else m in
  m.

(** The four numbers of the pagination block. *)
Record pagination := {
  page_number : number;
  page_size : number;
  skip : number;
  limit : number;
}.

Definition paginate (pageNumber pageSize : value) : pagination :=
  let pageNumber := num_or (parseInt pageNumber) (Fin 1) in
  let pageSize := num_or (parseInt pageSize) (Fin 5) in
  let skip := num_mul (num_sub pageNumber (Fin 1)) pageSize in
  let limit := pageSize in
  {| page_number := pageNumber; page_size := pageSize; skip := skip; limit := limit |}.

(** What [GetAllUsers] returns. *)
Record users_page := {
  users : list doc;
  totalUsers : number;
  totalPages : number;
  pageNumber_out : number;
  pageSize_out : number;
}.

Definition users_pipeline (m : match_doc) (sortOptions : sort_spec) (pg : pagination)
  : list stage :=
  [Match m]
  ++ (if (0 <? Z.of_nat (length sortOptions)) then [Sort sortOptions] else [])
  ++ [Skip (skip pg); Limit (limit pg)].

Definition GetAllUsers (p : list_params) : M users_page :=
  let pageSize := param_default (pageSize p) (VNum (Fin 5)) in
  let pageNumber := param_default (pageNumber p) (VNum (Fin 1)) in
  try_catch
    (connectToDatabase;;
     let sortOptions := getSortOptions (sortBy p) (VStr "user") in
     today ← new_Date;
     let today := setHours_0 today in
     let match_ := users_match today p in
     let pg := paginate pageNumber pageSize in
     users ← aggregate (users_pipeline match_ sortOptions pg);
     totalUsers ← countDocuments match_;
     let totalPages := ceil_div totalUsers (page_size pg) in
     mret {| users := users; totalUsers := totalUsers; totalPages := totalPages;
             pageNumber_out := page_number pg; pageSize_out := page_size pg |})
    (fun err => throw (Error ("Failed to get users: " +:+ message err))).

(** *** GetUserById *)

Definition GetUserById (id : value) : M (option doc) :=
  if negb (ObjectId_isValid id) then throw (Error "Invalid ObjectId format")
  else
    connectToDatabase;;
    objectId ← lift_result (construct_ObjectId id);
    try_catch
      (user ← findOne (ById objectId) ["password"];
       (* user || null *)
       mret user)
      (fun err => throw (Error ("Failed to get user by ID: " +:+ message err))).

(** *** GetUserByEmail *)

(** [email.trim().toLowerCase()]: a method call on something that is not a
    string throws. *)
Definition clean_email (email : value) : result string :=
  match email with
  | VStr s => Return (toLowerCase (trim s))
  | VUndefined => Throw (TypeError "Cannot read properties of undefined (reading 'trim')")
  | VNull => Throw (TypeError "Cannot read properties of null (reading 'trim')")
  | _ => Throw (TypeError "email.trim is not a function")
  end.

Definition GetUserByEmail (email : value) : M (option doc) :=
  connectToDatabase;;
  try_catch
    (cleanEmail ← lift_result (clean_email email);
     user ← findOne (ByEmail (VStr cleanEmail)) [];
     mret user)
    (fun err => throw (Error ("Failed to get user by email: " +:+ message err))).

(** *** RegisterUser *)

(** The function ends in [return resourceLimits;].  No binding of that name
    exists in the module or among the globals, so evaluating it throws a
    ReferenceError; no [insertOne] is ever issued. *)
Definition RegisterUser (user : doc) : M value :=
  connectToDatabase;;
  try_catch
    (existingUser ← findOne (ByEmail (get "email" user)) [];
     match existingUser with
     | Some _ => throw (Error "User with this email already exists")
     | None =>
         _id ← fresh_ObjectId;
         createdOn ← new_Date;
         let newUser : doc := <["createdOn" := VDate createdOn]> (<["_id" := VId _id]> user) in
         throw (ReferenceError "resourceLimits is not defined")
     end)
    (fun err => throw (Error ("Failed to register user: " +:+ message err))).

(** *** UpdateUser *)

(** [const { _id, ...updateFields } = updatedUser] *)
Definition rest_without_id (updatedUser : doc) : value * doc :=
  (get "_id" updatedUser, delete "_id" updatedUser).

Definition UpdateUser (updatedUser : doc) : M update_result :=
  connectToDatabase;;
  try_catch
    (let '(_id, updateFields) := rest_without_id updatedUser in
     if negb (ObjectId_isValid _id) then throw (Error "Invalid ObjectId format")
     else
       objectId ← lift_result (construct_ObjectId _id);
       result ← updateOne (ById objectId) updateFields;
       mret result)
    (fun err => throw (Error ("Failed to update user: " +:+ message err))).

End Database.

(** ** Middleware *)

(** The part of the Express request the middleware reads and writes. *)
Record http_request := { params : gmap string value; body : doc }.

(** One element of the [errors] array. *)
Record error_entry := { e_message : string; e_path : list string; e_type : string }.

(** The JSON bodies the middleware sends. *)
Inductive json_body :=
| ErrorBody (error : string)                 (* { error: ... } *)
| ErrorsBody (errors : list error_entry).    (* { errors: [...] } *)

Record http_response := { status : Z; json : json_body }.

(** A middleware either answers, or hands the (possibly rewritten) request to
    the next handler. *)
Inductive outcome :=
| Responded (res : http_response)
| Next (req : http_request).

(** *** validId *)

Definition validId `{Driver} (paramName : string) (req : http_request) : outcome :=
  match construct_ObjectId (get paramName (params req)) with
  | Return o =>
      Next {| params := <[paramName := VId o]> (params req); body := body req |}
  | Throw _ =>
      Responded {| status := 400;
                   json := ErrorBody (paramName +:+ " is not a valid ObjectId") |}
  end.

(** *** validBody *)

Module Joi.

(** An element of [error.details]. *)
Record detail := {
  message : string;
  path : list string;
  type : string;
  context : doc;
}.

Record options := { abortEarly : bool; stripUnknown : bool }.

(** The object [schema.validate] returns: [{ error, value }], with [error]
    absent on success. *)
Record validation := { error : option (list detail); validated : doc }.

(** A schema of type [Sch]: its [validate] method, the keys it declares, and
    the rules a body breaks (in the order Joi reports them). *)
Class Schema (Sch : Type) := {
  validate : Sch -> doc -> options -> validation;
  keys : Sch -> list string;
  violations : Sch -> doc -> list detail;
}.

(** With [abortEarly: false] every violation is reported, not the first
    only. *)
Definition reports_all `{Schema Sch} : Prop :=
  forall (s : Sch) (b : doc) (o : options),
    abortEarly o = false -> stripUnknown o = true ->
    error (validate s b o)
    = match violations s b with [] => None | ds => Some ds end.

(** With [stripUnknown: true] the value holds declared keys only. *)
Definition strips_unknown `{Schema Sch} : Prop :=
  forall (s : Sch) (b : doc) (o : options) (k : string),
    stripUnknown o = true ->
    is_Some (validated (validate s b o) !! k) -> k ∈ keys s.

End Joi.

Definition validBody `{Joi.Schema Sch} (schema : Sch) (req : http_request) : outcome :=
  let r := Joi.validate schema (body req)
             {| Joi.abortEarly := false; Joi.stripUnknown := true |} in
  match Joi.error r with
  | Some details =>
      let messages :=
        map (fun err => {| e_message := Joi.message err;
                           e_path := Joi.path err;
                           e_type := Joi.type err |}) details in
      Responded {| status := 400; json := ErrorsBody messages |}
  | None =>
      Next {| params := params req; body := Joi.validated r |}
  end.

(** ** The shape of an identifier *)

Definition is_hex_digit (c : ascii) : bool :=
  let n := Z.of_nat (nat_of_ascii c) in
  ((48 <=? n) && (n <=? 57)) || ((97 <=? n) && (n <=? 102)) || ((65 <=? n) && (n <=? 70)).

Fixpoint all_hex (s : string) : bool :=
  match s with
  | EmptyString => true
  | String c rest => is_hex_digit c && all_hex rest
  end.

(** A string of exactly 24 hexadecimal digits. *)
Definition is_hex24 (s : string) : bool :=
  (Z.of_nat (String.length s) =? 24) && all_hex s.

(** ** A concrete environment

    One instance of each interface, to run the definitions: an [ObjectId]
    that accepts what the constructor of bson 6 accepts, a server that
    decides the filters on flat documents, and a small validator in the
    manner of Joi for objects with string fields. *)

Module Reference.

Fixpoint pad_left (n : nat) (s : string) : string :=
  match n with
  | O => s
  | S n' => if (String.length s <? 24)%nat then pad_left n' (String "0" s) else s
  end.

Definition generate (counter : nat) : ObjectId :=
  {| toHexString := pad_left 24 (pretty (Z.of_nat counter)) |}.

(** The constructor, as a function: where the driver makes a new identifier
    (no argument, or a number of seconds) this one returns a fixed one. *)
Definition new (v : value) : option ObjectId :=
  match v with
  | VUndefined | VNull | VNum _ => Some (generate 0)
  | VStr s => if is_hex24 s then Some {| toHexString := toLowerCase s |} else None
  | VId o => Some o
  | VBool _ | VDate _ => None
  end.

Definition isValid (v : value) : bool :=
  match v with
  | VUndefined | VNull => false
  | _ => bool_decide (is_Some (new v))
  end.

(** Whether [needle] occurs in [s]. *)
Fixpoint prefix_of (needle s : string) : bool :=
  match needle, s with
  | EmptyString, _ => true
  | String a n', String b s' => bool_decide (a = b) && prefix_of n' s'
  | String _ _, EmptyString => false
  end.

Fixpoint contains (needle s : string) : bool :=
  prefix_of needle s ||
  match s with
  | EmptyString => false
  | String _ s' => contains needle s'
  end.

(** A pattern without metacharacters, with option [i]. *)
Definition regex_clause_holds (d : doc) (c : regex_clause) : bool :=
  match regex c, d !! field c with
  | VStr pattern, Some (VStr s) => contains (toLowerCase pattern) (toLowerCase s)
  | _, _ => false
  end.

Definition date_le (a b : date) : bool :=
  match a, b with
  | At d1 m1, At d2 m2 => (d1 <? d2) || ((d1 =? d2) && (m1 <=? m2))
  | _, _ => false
  end.

Definition in_window (d : doc) (f : created_on_filter) : bool :=
  match d !! "createdOn" with
  | Some (VDate t) =>
      from_option (date_le t) true (lte f) && from_option (fun lo => date_le lo t) true (gte f)
  | _ => false
  end.

Definition satisfies (f : query) (d : doc) : bool :=
  match f with
  | ByEmail v => bool_decide (d !! "email" = Some v)
  | ById o => bool_decide (d !! "_id" = Some (VId o))
  | ByMatch m =>
      from_option (existsb (regex_clause_holds d)) true (m_or m)
      && from_option (fun r => bool_decide (d !! "role" = Some r)) true (m_role m)
      && from_option (in_window d) true (m_createdOn m)
  end.

(** Order of two values of the same kind; values of different kinds are left
    as they are. *)
Definition value_leb (a b : value) : bool :=
  match a, b with
  | VStr x, VStr y => String.leb x y
  | VDate x, VDate y => date_le x y
  | VNum (Fin x), VNum (Fin y) => x <=? y
  | _, _ => true
  end.

(** [a] may stand before [b] under the sort specification. *)
Fixpoint before (spec : sort_spec) (a b : doc) : bool :=
  match spec with
  | [] => true
  | (k, dir) :: rest =>
      let x := get k a in
      let y := get k b in
      if bool_decide (x = y) then before rest a b
      else if 0 <? dir then value_leb x y else value_leb y x
  end.

Fixpoint insert_sorted (spec : sort_spec) (d : doc) (sorted : list doc) : list doc :=
  match sorted with
  | [] => [d]
  | e :: rest => if before spec d e then d :: sorted else e :: insert_sorted spec d rest
  end.

Definition sort_by (spec : sort_spec) (docs : list doc) : list doc :=
  foldr (insert_sorted spec) [] docs.

Definition text_of (f : failure) : string :=
  match f with
  | InvalidObjectIdInput => "input must be a 24 character hex string, 12 byte Uint8Array, or an integer"
  | ConnectionFailed => "connect ECONNREFUSED"
  | InvalidSkip => "invalid argument to $skip stage"
  | InvalidLimit => "invalid argument to $limit stage"
  | UpdateRefused =>
      "Performing an update on the path '_id' would modify the immutable field '_id'"
  end.

(** The server refuses a [$set] that names [_id] with another value than the
    document has. *)
Definition changes_id (fields d : doc) : bool :=
  match fields !! "_id" with
  | Some v => negb (bool_decide (d !! "_id" = Some (to_bson v)))
  | None => false
  end.

#[export] Instance driver : Driver := {|
  ObjectId_isValid := isValid;
  ObjectId_new := new;
  ObjectId_generate := generate;
  matches := satisfies;
  sort_docs := sort_by;
  refuses_set := changes_id;
  failure_message := text_of;
|}.

(** *** A validator for objects with string fields *)

Record field_rules := {
  required : bool;
  trimmed : bool;
  min : option nat;
  default_to : option string;
}.

Definition object_schema := list (string * field_rules).

(** The quotation mark Joi puts around the label of a field. *)
Definition quote_mark : ascii := ascii_of_nat 34.

Definition quoted (label : string) : string :=
  String quote_mark (label +:+ String quote_mark EmptyString).

Definition violation (key : string) (type message : string) : Joi.detail :=
  {| Joi.message := quoted key +:+ message;
     Joi.path := [key];
     Joi.type := type;
     Joi.context := {[ "key" := VStr key ]} |}.

(** The converted value of a field (if it has one) and the rules it breaks. *)
Definition check_field (key : string) (r : field_rules) (b : doc)
  : option value * list Joi.detail :=
  match b !! key with
  | None | Some VUndefined =>
      if required r then (None, [violation key "any.required" " is required"])
      else (VStr <$> default_to r, [])
  | Some (VStr s) =>
      let s := if trimmed r then trim s else s in
      if String.eqb s "" then
        (Some (VStr s), [violation key "string.empty" " is not allowed to be empty"])
      else
        match min r with
        | Some n =>
            if (String.length s <? n)%nat then
              (Some (VStr s),
               [violation key "string.min"
                  (" length must be at least " +:+ pretty (Z.of_nat n) +:+ " characters long")])
            else (Some (VStr s), [])
        | None => (Some (VStr s), [])
        end
  | Some v => (Some v, [violation key "string.base" " must be a string"])
  end.

Fixpoint all_violations (s : object_schema) (b : doc) : list Joi.detail :=
  match s with
  | [] => []
  | (key, r) :: rest => (check_field key r b).2 ++ all_violations rest b
  end.

Fixpoint converted (s : object_schema) (b : doc) : doc :=
  match s with
  | [] => ∅
  | (key, r) :: rest =>
      match (check_field key r b).1 with
      | Some v => <[key := v]> (converted rest b)
      | None => converted rest b
      end
  end.

Definition declared (s : object_schema) : list string := map fst s.

(** The keys of the body the schema does not declare. *)
Definition unknown_keys (s : object_schema) (b : doc) : list string :=
  List.filter (fun k => negb (bool_decide (k ∈ declared s))) (map fst (map_to_list b)).

Definition validate (s : object_schema) (b : doc) (o : Joi.options) : Joi.validation :=
  let unknown := if Joi.stripUnknown o then [] else unknown_keys s b in
  let found :=
    all_violations s b
    ++ map (fun k => violation k "object.unknown" " is not allowed") unknown in
  let kept : doc :=
    if Joi.stripUnknown o then converted s b
    else converted s b ∪ filter (fun kv => kv.1 ∈ unknown) b in
  {| Joi.error :=
       match found with
       | [] => None
       | first :: others => Some (if Joi.abortEarly o then [first] else found)
       end;
     Joi.validated := kept |}.

#[export] Instance schema : Joi.Schema object_schema := {|
  Joi.validate := validate;
  Joi.keys := declared;
  Joi.violations := all_violations;
|}.

(** A schema in the manner of [loginSchema]: both fields required, the
    e-mail trimmed, the password of 6 characters at least.  The check of
    the e-mail syntax and the messages of the original are left out. *)
Definition loginSchema : object_schema :=
  [ ("email", {| required := true; trimmed := true; min := None; default_to := None |});
    ("password", {| required := true; trimmed := false; min := Some 6%nat; default_to := None |}) ].

(** A process that is connected to a server holding [us]. *)
Definition connected (us : list doc) : World :=
  {| env_DB_URL := Some "mongodb://localhost:27017"; env_DB_NAME := Some "bugtracker";
     reachable := true; clock := At 20759 36000000; next_id := 7;
     _db := true; Users := us; trace := [] |}.

Definition alice : doc :=
  {[ "_id" := VId {| toHexString := "65a1b2c3d4e5f60718293a4b" |};
     "email" := VStr "alice@example.com";
     "password" := VStr "$2b$10$abcdefghijklmnopqrstuv";
     "givenName" := VStr "Alice";
     "familyName" := VStr "Archer";
     "role" := VStr "Admin";
     "createdOn" := VDate (At 20700 0) ]}.

Definition bob : doc :=
  {[ "_id" := VId {| toHexString := "65a1b2c3d4e5f60718293a4c" |};
     "email" := VStr "bob@example.com";
     "password" := VStr "hunter22";
     "givenName" := VStr "Bob";
     "familyName" := VStr "Baker";
     "role" := VStr "User";
     "createdOn" := VDate (At 20750 1000) ]}.

End Reference.

(** ** Vocabulary of the statements *)

(** [n < 0] *)
Definition num_negative (n : number) : bool :=
  match n with
  | NaN => false
  | Infinity negative => negative
  | Fin z => z <? 0
  | Frac m _ => m <? 0
  end.

Definition is_infinite (n : number) : bool :=
  match n with
  | Infinity _ => true
  | _ => false
  end.

(** A positive integer. *)
Definition positive_integer (n : number) : Prop :=
  exists z, n = Fin z /\ 0 < z.

(** An integer other than 0, or an infinity. *)
Definition whole_or_infinite (n : number) : Prop :=
  (exists z, n = Fin z /\ z <> 0) \/ (exists negative, n = Infinity negative).

(** Page number and page size are positive integers, and neither [skip] nor
    [limit] is negative. *)
Definition clamped (pg : pagination) : Prop :=
  positive_integer (page_number pg) /\ positive_integer (page_size pg)
  /\ num_negative (skip pg) = false /\ num_negative (limit pg) = false.

(** A decimal digit, and a string of decimal digits. *)
Definition is_decimal (c : ascii) : bool :=
  let n := byte c in (48 <=? n) && (n <=? 57).

Fixpoint all_decimal (s : string) : bool :=
  match s with
  | EmptyString => true
  | String c rest => is_decimal c && all_decimal rest
  end.

(** A string of ASCII characters. *)
Fixpoint ascii_only (s : string) : bool :=
  match s with
  | EmptyString => true
  | String c rest => (byte c <? 128) && ascii_only rest
  end.

Fixpoint has_byte (x : Z) (s : string) : bool :=
  match s with
  | EmptyString => false
  | String c rest => (byte c =? x) || has_byte x rest
  end.

(** A key that names a field of the document itself: it is not empty, does
    not start with a dollar sign and has no dot and no NUL in it. *)
Definition is_field_name (k : string) : bool :=
  match k with
  | EmptyString => false
  | String c _ => negb (byte c =? 36) && negb (has_byte 46 k) && negb (has_byte 0 k)
  end.

Definition is_invalid_date (v : value) : bool :=
  match v with
  | VDate InvalidDate => true
  | _ => false
  end.

(** A payload of plain fields: every key names a field of the document
    itself, and no value is an Invalid Date. *)
Definition plain_fields (fields : doc) : bool :=
  forallb (fun kv => is_field_name kv.1 && negb (is_invalid_date kv.2))
    (map_to_list fields).

(** There is a field to set besides [_id]. *)
Definition sets_a_field (updatedUser : doc) : bool :=
  negb (bool_decide (delete "_id" updatedUser = ∅)).

(** [connectToDatabase] will succeed: the handle exists already, or the
    environment names a server that accepts the connection. *)
Definition can_connect (w : World) : bool :=
  _db w
  || (negb (env_missing (env_DB_URL w)) && negb (env_missing (env_DB_NAME w))
      && reachable w).

(** The [_id] of each stored user, in order. *)
Definition stored_ids (w : World) : list value := map (get "_id") (Users w).

(** The entry of the [errors] array for one element of [error.details]. *)
Definition entry_of (d : Joi.detail) : error_entry :=
  {| e_message := Joi.message d; e_path := Joi.path d; e_type := Joi.type d |}.

(** The options [validBody] passes to [validate]. *)
Definition validBody_options : Joi.options :=
  {| Joi.abortEarly := false; Joi.stripUnknown := true |}.

(** A date moved back by a whole number [n] of calendar days, at the same
    time of day: the date [n] days before, or Invalid Date when the result
    is outside the range of dates. *)
Definition days_before (d : date) (n : number) : date :=
  match d, n with
  | At day ms, Fin z => time_clip (At (day - z) ms)
  | _, _ => InvalidDate
  end.

(** The date range of TimeClip, for a calendar day at midnight. *)
Definition day_in_range (day : Z) : Prop :=
  Z.abs (day * 86400000) <= 8640000000000000.

(** The whole numbers next to a finite number: the greatest that is not
    above it and the least that is not below it. *)
Definition floor_of (n : number) : Z :=
  let '(num, den) := fraction n in num / den.

Definition ceiling_of (n : number) : Z :=
  let '(num, den) := fraction n in - ((- num) / den).

(** The instant [n] days before a date, for a finite [n]: a number of
    milliseconds since the epoch, which need not be whole, as a fraction. *)
Definition instant_before (d : date) (n : number) : option (Z * Z) :=
  match d, n with
  | At day ms, (Fin _ | Frac _ _) =>
      let '(num, den) := fraction n in
      Some ((day * 86400000 + ms) * den - num * 86400000, den)
  | _, _ => None
  end.

(** Whether a date is at that instant. *)
Definition at_instant (d : date) (instant : option (Z * Z)) : bool :=
  match d, instant with
  | At day ms, Some (num, den) => (day * 86400000 + ms) * den =? num
  | _, _ => false
  end.

(** ** More of database.js and of the middleware *)

Section MoreOperations.
Context `{Driver}.

(** *** LoginUser *)

Definition LoginUser (email : value) : M (option doc) :=
  connectToDatabase;;
  try_catch
    (user ← findOne (ByEmail email) [];
     mret user)
    (fun err => throw (Error ("Failed to login user: " +:+ message err))).

(** *** DeleteUser *)

Fixpoint delete_first (p : doc -> bool) (docs : list doc) : list doc :=
  match docs with
  | [] => []
  | d :: rest => if p d then rest else d :: delete_first p rest
  end.

Record delete_result := { deletedCount : Z }.

(** [db.collection("Users").deleteOne(filter)]: the first matching document
    goes. *)
Definition deleteOne (f : query) : M delete_result :=
  send "deleteOne";;
  w ← get_world;
  match List.find (matches f) (Users w) with
  | None => mret {| deletedCount := 0 |}
  | Some _ =>
      modify_world (set_Users (delete_first (matches f) (Users w)));;
      mret {| deletedCount := 1 |}
  end.

Definition DeleteUser (id : value) : M delete_result :=
  connectToDatabase;;
  try_catch
    (if negb (ObjectId_isValid id) then throw (Error "Invalid ObjectId for deletion")
     else
       objectId ← lift_result (construct_ObjectId id);
       result ← deleteOne (ById objectId);
       mret result)
    (fun error => throw (Error "Error deleting user")).

(** *** Bug operations

    The [Bugs] collection is passed in and, where it is written, handed back
    beside the result; the process ([_db], the trace) stays in the state. *)

(** [db.collection('Bugs').find({}).toArray()] *)
Definition find_all (bugs : list doc) : M (list doc) :=
  send "find";; mret bugs.

Definition GetAllBugs (bugs : list doc) : M (list doc) :=
  try_catch
    (connectToDatabase;;
     bugs ← find_all bugs;
     mret bugs)
    (fun err => throw (Error ("Failed to get bugs: " +:+ message err))).

(** [db.collection('Bugs').findOne(filter)] *)
Definition findOne_in (bugs : list doc) (f : query) : M (option doc) :=
  send "findOne";; mret (List.find (matches f) bugs).

Definition GetBugById (id : value) (bugs : list doc) : M (option doc) :=
  if negb (ObjectId_isValid id) then throw (Error "Invalid bug ID format")
  else
    try_catch
      (connectToDatabase;;
       objectId ← lift_result (construct_ObjectId id);
       bug ← findOne_in bugs (ById objectId);
       match bug with
       | None => mret None
       | Some b => mret (Some b)
       end)
      (fun error => throw (Error "Error retrieving bug")).

(** [db.collection('Bugs').updateOne(filter, { $set: fields })], with the
    collection handed back; as [updateOne], it rejects when the server
    refuses the update. *)
Definition updateOne_in (bugs : list doc) (f : query) (fields : doc)
  : M (update_result * list doc) :=
  send "updateOne";;
  match List.find (matches f) bugs with
  | None => mret ({| matchedCount := 0; modifiedCount := 0 |}, bugs)
  | Some d =>
      if refuses_set fields d then throw (DriverError UpdateRefused)
      else
        mret ({| matchedCount := 1;
                 modifiedCount := if decide (apply_set fields d = d) then 0 else 1 |},
              update_first (matches f) (apply_set fields) bugs)
  end.

Definition UpdateBug (bugId : value) (update : doc) (bugs : list doc)
  : M (update_result * list doc) :=
  connectToDatabase;;
  try_catch
    (objectId ← lift_result (construct_ObjectId bugId);
     dbResult ← updateOne_in bugs (ById objectId) update;
     mret dbResult)
    (fun err => throw (Error ("Failed to update bug: " +:+ message err))).

Definition CloseBug (bugId : value) (updatedFields : doc) (bugs : list doc)
  : M (update_result * list doc) :=
  connectToDatabase;;
  try_catch
    (if negb (ObjectId_isValid bugId) then throw (Error "Invalid bug ID format")
     else
       objectId ← lift_result (construct_ObjectId bugId);
       dbResult ← updateOne_in bugs (ById objectId) updatedFields;
       mret dbResult)
    (fun err => throw (Error ("Failed to close bug: " +:+ message err))).

End MoreOperations.

(** *** validRole *)

(** [requiredRoles.join(', ')] *)
Fixpoint join (separator : string) (items : list string) : string :=
  match items with
  | [] => ""
  | [item] => item
  | item :: rest => item +:+ separator +:+ join separator rest
  end.

(** [requiredRoles.includes(userRole)] *)
Definition includes (requiredRoles : list string) (userRole : string) : bool :=
  existsb (String.eqb userRole) requiredRoles.

(** The middleware reads [req.userRole], which is passed here beside the
    request: [None] when the property is not set, otherwise the role, a
    string. *)
Definition validRole (requiredRoles : list string) (userRole : option string)
    (req : http_request) : outcome :=
  match userRole with
  | None =>
      Responded {| status := 401;
                   json := ErrorBody "Unauthorized: User role not found." |}
  | Some role =>
      if String.eqb role "" then
        Responded {| status := 401;
                     json := ErrorBody "Unauthorized: User role not found." |}
      else if negb (includes requiredRoles role) then
        Responded {| status := 403;
                     json := ErrorBody
                       ("Forbidden: Your role (" +:+ role
                        +:+ ") does not have permission. Required roles: "
                        +:+ join ", " requiredRoles +:+ ".") |}
      else Next req
  end.

(** ** More vocabulary *)

(** What [GetUserByEmail] looks up for a string. *)
Definition normalized (email : string) : string := toLowerCase (trim email).

(** The request with one parameter set. *)
Definition with_param (name : string) (v : value) (req : http_request) : http_request :=
  {| params := <[name := v]> (params req); body := body req |}.

(** The parameters of a listing with another page number, written in
    decimal as in a query string. *)
Definition at_page (p : list_params) (k : Z) : list_params :=
  {| keywords := keywords p; role := role p; maxAge := maxAge p; minAge := minAge p;
     sortBy := sortBy p; pageSize := pageSize p; pageNumber := VStr (pretty k) |}.

(** The documents [GetAllUsers] returns for page [k]; none when it throws. *)
Definition page_users `{Driver} (p : list_params) (w : World) (k : Z) : list doc :=
  match (GetAllUsers (at_page p k) w).1 with
  | Return r => users r
  | Throw _ => []
  end.

(** The matching set of a listing, as the server sorts it. *)
Definition ordered_matching `{Driver} (p : list_params) (w : World) : list doc :=
  sort_docs (getSortOptions (sortBy p) (VStr "user"))
    (List.filter (matches (ByMatch (users_match (setHours_0 (clock w)) p))) (Users w)).

(** [$sort] neither drops nor adds documents. *)
Definition sort_keeps_length `{Driver} : Prop :=
  forall (spec : sort_spec) (docs : list doc),
    length (sort_docs spec docs) = length docs.

(** Whether a document satisfies [{ _id: o }] is decided by its [_id]. *)
Definition id_match_by_id `{Driver} : Prop :=
  forall (o : ObjectId) (d d' : doc),
    get "_id" d = get "_id" d' -> matches (ById o) d = matches (ById o) d'.

(** ** Scenarios

    States and documents to run the further properties on. *)

Module Scenario.

(** A process that has not connected yet, with a server that accepts. *)
Definition starting (us : list doc) : World :=
  {| env_DB_URL := Some "mongodb://localhost:27017"; env_DB_NAME := Some "bugtracker";
     reachable := true; clock := At 20759 36000000; next_id := 7;
     _db := false; Users := us; trace := [] |}.

(** The same with a server that refuses the connection. *)
Definition unreachable (us : list doc) : World :=
  {| env_DB_URL := Some "mongodb://localhost:27017"; env_DB_NAME := Some "bugtracker";
     reachable := false; clock := At 20759 36000000; next_id := 7;
     _db := false; Users := us; trace := [] |}.

(** A process started without [DB_NAME]. *)
Definition unconfigured : World :=
  {| env_DB_URL := Some "mongodb://localhost:27017"; env_DB_NAME := None;
     reachable := true; clock := At 20759 36000000; next_id := 7;
     _db := false; Users := []; trace := [] |}.

Definition crash_bug : doc :=
  {[ "_id" := VId {| toHexString := "66b0c0ffee00000000000001" |};
     "title" := VStr "Crash on save";
     "classification" := VStr "unclassified";
     "closed" := VBool false;
     "createdOn" := VDate (At 20755 0) ]}.

(** A payload that would give the bug another [_id]. *)
Definition renumbering : doc :=
  {[ "_id" := VId {| toHexString := "66b0c0ffee00000000000002" |};
     "closed" := VBool true ]}.

(** Seven users, to have more than one page. *)
Definition seven : list doc :=
  [Reference.alice; Reference.bob; Reference.alice; Reference.bob;
   Reference.alice; Reference.bob; Reference.alice].

Definition listing (size page : value) : list_params :=
  {| keywords := VUndefined; role := VUndefined; maxAge := VUndefined;
     minAge := VUndefined; sortBy := VStr "newest";
     pageSize := size; pageNumber := page |}.

(** A numeral of [n] digits 9. *)
Fixpoint nines (n : nat) : string :=
  match n with
  | O => ""
  | S n' => String "9" (nines n')
  end.

(** U+00A0 *)
Definition no_break_space : string :=
  String (ascii_of_nat 194) (String (ascii_of_nat 160) EmptyString).

(** One day and a half, and half a day. *)
Definition a_day_and_a_half : number := Frac 3 1.
Definition half_a_day : number := Frac 1 1.

(** Two users of the same given name, and a server that sorts as the
    reference server does but puts documents with equal keys the other way
    round. *)
Definition sam_hill : doc :=
  {[ "_id" := VId {| toHexString := "65a1b2c3d4e5f60718293a51" |};
     "email" := VStr "sam.hill@example.com";
     "givenName" := VStr "Sam"; "familyName" := VStr "Hill";
     "role" := VStr "User"; "createdOn" := VDate (At 20740 0) ]}.

Definition sam_wood : doc :=
  {[ "_id" := VId {| toHexString := "65a1b2c3d4e5f60718293a52" |};
     "email" := VStr "sam.wood@example.com";
     "givenName" := VStr "Sam"; "familyName" := VStr "Wood";
     "role" := VStr "User"; "createdOn" := VDate (At 20741 0) ]}.

Definition other_server : Driver := {|
  ObjectId_isValid := Reference.isValid;
  ObjectId_new := Reference.new;
  ObjectId_generate := Reference.generate;
  matches := Reference.satisfies;
  sort_docs := fun spec docs => Reference.sort_by spec (rev docs);
  refuses_set := Reference.changes_id;
  failure_message := Reference.text_of;
|}.

End Scenario.

(** ** Running computations *)

(** Unfolds the monad down to the pairs of result and state. *)
Ltac run :=
  unfold mbind, mret, M_bind, M_ret, throw, try_catch, get_world, modify_world,
    send, lift_result, new_Date in *;
  cbn beta iota zeta delta [fst snd negb] in *.

(** Splits on whether [v] is the literal; where it is, [v] is replaced. *)
Ltac split_literal v lit :=
  let Hlit := fresh "Hlit" in
  destruct (strict_eq_str v lit) eqn:Hlit;
  [destruct v; try discriminate Hlit; simpl in Hlit;
   apply String.eqb_eq in Hlit; subst |].

(** Closes the four parts of the shape once the tests are decided. *)
Ltac shape_decided :=
  unfold getSortOptions;
  repeat match goal with Hlit : strict_eq_str _ _ = false |- _ => rewrite !Hlit end;
  split; [compute_done |];
  split; [compute_done |];
  split; [first [discriminate | intros _; first [by exists [] | by eexists [_]]] |];
  first [discriminate | intros; discriminate | reflexivity | by intros].

(** * Part II: properties *)

(** ** getSortOptions *)

Example getSortOptions_role_user :
  getSortOptions (VStr "role") (VStr "user")
  = [("role", 1); ("givenName", 1); ("familyName", 1); ("createdOn", 1)].
Proof. reflexivity. Qed.

Example getSortOptions_other_type :
  getSortOptions (VStr "newest") (VStr "comment") = [].
Proof. reflexivity. Qed.

(** For the entity type ['user'] the specification is never empty, so the
    pipeline of [GetAllUsers] always has its [$sort] stage. *)
Lemma getSortOptions_user_nonempty (sortBy : value) :
  (0 <? Z.of_nat (length (getSortOptions sortBy (VStr "user")))) = true.
Proof.
  unfold getSortOptions. simpl strict_eq_str at 1. cbv iota.
  repeat (match goal with |- context [if ?b then _ else _] => destruct b end);
    reflexivity.
Qed.

(** C3: [getSortOptions('newest', 'bug')] is exactly [{createdOn: -1}],
    [getSortOptions('title', 'bug')] is exactly [{title: 1, createdOn: -1}],
    and for every [sortBy] that is none of the keywords of the user table
    [getSortOptions(sortBy, 'user')] is exactly [{givenName: 1}]. *)
Theorem getSortOptions_table (sortBy : value) :
  is_user_sort_keyword sortBy = false ->
  getSortOptions (VStr "newest") (VStr "bug") = [("createdOn", -1)]
  /\ getSortOptions (VStr "title") (VStr "bug") = [("title", 1); ("createdOn", -1)]
  /\ getSortOptions sortBy (VStr "user") = [("givenName", 1)].
Proof.
  intros Hkw. split; [reflexivity | split; [reflexivity |]].
  unfold is_user_sort_keyword, user_sort_keywords in Hkw. simpl in Hkw.
  repeat (apply orb_false_elim in Hkw; destruct Hkw as [? Hkw]).
  unfold getSortOptions. simpl strict_eq_str at 1. cbv iota.
  repeat match goal with H : strict_eq_str _ _ = false |- _ => rewrite H; clear H end.
  reflexivity.
Qed.

Lemma getSortOptions_table_witness :
  is_user_sort_keyword (VStr "priority") = false
  /\ getSortOptions (VStr "priority") (VStr "user") = [("givenName", 1)].
Proof.
  split; [reflexivity |].
  apply (getSortOptions_table (VStr "priority")). reflexivity.
Defined.

(** ** Numbers: rounding to a double *)

Example to_number_examples :
  to_number 9007199254740993 1 = Fin 9007199254740992
  /\ to_number (2 ^ 53 + 3) 1 = Fin (2 ^ 53 + 4)
  /\ to_number (10 ^ 22) 1 = Fin (10 ^ 22)
  /\ to_number ((2 ^ 54 - 1) * 2 ^ 970) 1 = Infinity false
  /\ to_number 1 10 = Frac 3602879701896397 55
  /\ to_number (-3) 2 = Frac (-3) 1
  /\ to_number 1 (2 ^ 1074) = Frac 1 1074
  /\ to_number 1 (2 ^ 1075) = Fin 0.
Proof. vm_compute. repeat split. Qed.

Example number_to_string_examples :
  number_to_string (Fin 42) = "42"
  /\ number_to_string (Fin (-1000000)) = "-1000000"
  /\ number_to_string (Frac 3 1) = "1.5"
  /\ number_to_string (to_number 1 10) = "0.1"
  /\ number_to_string (to_number 2 3) = "0.6666666666666666"
  /\ number_to_string (to_number 1 (10 ^ 6)) = "0.000001"
  /\ number_to_string (to_number 1 (10 ^ 7)) = "1e-7"
  /\ number_to_string (Frac 1 1074) = "5e-324"
  /\ number_to_string (Fin (2 ^ 53)) = "9007199254740992"
  /\ number_to_string (to_number 123456789012345678901 1) = "123456789012345680000"
  /\ number_to_string (Fin (10 ^ 21)) = "1e+21"
  /\ number_to_string (Fin (2 ^ 70)) = "1.1805916207174113e+21"
  /\ number_to_string (to_number (10 ^ 23) 1) = "1e+23"
  /\ number_to_string (Fin ((2 ^ 53 - 1) * 2 ^ 971)) = "1.7976931348623157e+308".
Proof. vm_compute. repeat split. Qed.

Lemma log2_ratio_1 (a : Z) : 0 < a -> log2_ratio a 1 = Z.log2 a.
Proof.
  intros Ha. unfold log2_ratio. change (Z.log2 1) with 0. rewrite Z.sub_0_r.
  pose proof (Z.log2_nonneg a) as Hl.
  rewrite Z.max_l by lia. rewrite Z.max_r by lia.
  pose proof (Z.log2_spec a Ha) as [Hlow _].
  destruct (Z.ltb_spec (a * 2 ^ 0) (1 * 2 ^ Z.log2 a)); [lia | reflexivity].
Qed.

Lemma nearest_even_1 (a : Z) : nearest_even a 1 = a.
Proof.
  unfold nearest_even. rewrite Z.div_1_r, Z.mod_1_r. reflexivity.
Qed.

Lemma nearest_even_ge (a d : Z) : a / d <= nearest_even a d.
Proof. unfold nearest_even. destruct (_ || _); lia. Qed.

(** An integer of at most 53 bits is a double. *)
Lemma to_number_exact (z : Z) : Z.abs z < 2 ^ 53 -> to_number z 1 = Fin z.
Proof.
  intros Hz. unfold to_number.
  destruct (Z.eqb_spec (Z.abs z) 0) as [H0 | H0]; [f_equal; lia |].
  assert (Ha : 0 < Z.abs z) by lia.
  rewrite log2_ratio_1 by assumption.
  pose proof (Z.log2_nonneg (Z.abs z)) as Hl0.
  assert (Hl : Z.log2 (Z.abs z) < 53) by (apply Z.log2_lt_pow2; lia).
  set (l := Z.log2 (Z.abs z)) in *.
  rewrite (Z.max_l (l - 52)) by lia.
  rewrite (Z.max_r 0 (- (l - 52))) by lia.
  rewrite (Z.max_l 0 (l - 52)) by lia.
  change (1 * 2 ^ 0) with 1. rewrite nearest_even_1.
  assert (Hlog : Z.log2 (Z.abs z * 2 ^ (- (l - 52))) = 52).
  { rewrite Z.log2_mul_pow2 by lia. fold l. lia. }
  rewrite Hlog.
  destruct (Z.ltb_spec 1024 (52 + 1 + (l - 52))); [lia |].
  unfold make_number.
  assert (Hsgn : Z.sgn z * (Z.abs z * 2 ^ (- (l - 52))) = z * 2 ^ (- (l - 52))).
  { rewrite Z.mul_assoc. f_equal. rewrite Z.mul_comm. apply Z.abs_sgn. }
  rewrite Hsgn.
  destruct (Z.leb_spec 0 (l - 52)).
  - assert (l - 52 = 0) as -> by lia. f_equal. simpl. lia.
  - rewrite Z.mod_mul by lia. rewrite Z.div_mul by lia. reflexivity.
Qed.

(** The double nearest to an integer is an integer of the same sign, or an
    infinity of that sign; rounding starts at 2^53 and stays beyond it. *)
Lemma to_number_integer (z : Z) :
  (exists z', to_number z 1 = Fin z'
     /\ (0 < z -> 0 < z') /\ (z < 0 -> z' < 0) /\ (z = 0 -> z' = 0)
     /\ (Z.abs z < 2 ^ 53 -> z' = z)
     /\ (2 ^ 53 <= Z.abs z -> 2 ^ 53 <= Z.abs z'))
  \/ (to_number z 1 = Infinity (z <? 0) /\ 2 ^ 53 <= Z.abs z).
Proof.
  destruct (Z.lt_ge_cases (Z.abs z) (2 ^ 53)) as [Hsmall | Hbig].
  { left. exists z. rewrite to_number_exact by assumption. repeat split; lia. }
  unfold to_number.
  destruct (Z.eqb_spec (Z.abs z) 0) as [H0 | H0]; [lia |].
  assert (Ha : 0 < Z.abs z) by lia.
  rewrite log2_ratio_1 by assumption.
  assert (Hl : 53 <= Z.log2 (Z.abs z)) by (apply Z.log2_le_pow2; lia).
  pose proof (Z.log2_spec _ Ha) as [Hlow _].
  set (l := Z.log2 (Z.abs z)) in *.
  rewrite (Z.max_l (l - 52)) by lia.
  rewrite (Z.max_l 0 (- (l - 52))) by lia.
  rewrite (Z.max_r 0 (l - 52)) by lia.
  rewrite Z.pow_0_r, Z.mul_1_r, Z.mul_1_l.
  set (q := nearest_even (Z.abs z) (2 ^ (l - 52))).
  assert (Hq : 2 ^ 52 <= q).
  { etransitivity; [| apply nearest_even_ge].
    apply Z.div_le_lower_bound; [lia |].
    rewrite <- Z.pow_add_r by lia. replace (l - 52 + 52) with l by lia. exact Hlow. }
  destruct (1024 <? Z.log2 q + 1 + (l - 52)).
  - right. split; [reflexivity | lia].
  - left. unfold make_number.
    destruct (Z.leb_spec 0 (l - 52)); [| lia].
    eexists. split; [reflexivity |].
    assert (Hp : 2 <= 2 ^ (l - 52)).
    { change 2 with (2 ^ 1) at 1. apply Z.pow_le_mono_r; lia. }
    assert (H52 : 2 ^ 52 = 4503599627370496) by reflexivity.
    assert (H53 : 2 ^ 53 = 9007199254740992) by reflexivity.
    rewrite H52 in Hq. rewrite H53 in *.
    repeat split; intros; nia.
Qed.

Lemma trailing_zeros_nonneg (m : Z) : 0 <= trailing_zeros m.
Proof.
  destruct m as [|p|p]; simpl; try lia; induction p; simpl; lia.
Qed.

Lemma trailing_zeros_divide (m : Z) : m = m / 2 ^ trailing_zeros m * 2 ^ trailing_zeros m.
Proof.
  assert (Hpos : forall p, exists c, Z.pos p = c * 2 ^ pos_trailing_zeros p
                                    /\ 0 <= pos_trailing_zeros p).
  { induction p as [p _ | p (c & Hc & Ht) |]; cbn [pos_trailing_zeros].
    - exists (Z.pos p~1). rewrite Z.pow_0_r. lia.
    - exists c. split; [| lia].
      rewrite Z.pow_add_r by lia. change (2 ^ 1) with 2.
      rewrite Pos2Z.inj_xO, Hc. ring.
    - exists 1. split; [reflexivity | lia]. }
  destruct m as [|p|p]; [reflexivity | |].
  - destruct (Hpos p) as (c & Hc & Ht). cbn [trailing_zeros].
    assert (Hnz : 2 ^ pos_trailing_zeros p <> 0) by (apply Z.pow_nonzero; lia).
    rewrite Hc at 2. rewrite Z.div_mul by assumption. exact Hc.
  - destruct (Hpos p) as (c & Hc & Ht). cbn [trailing_zeros].
    assert (Hnz : 2 ^ pos_trailing_zeros p <> 0) by (apply Z.pow_nonzero; lia).
    assert (Z.neg p = (- c) * 2 ^ pos_trailing_zeros p) as Hn by lia.
    rewrite Hn at 2. rewrite Z.div_mul by assumption. exact Hn.
Qed.

(** Dropping the fraction of [m * 2^e]. *)
Lemma truncate_make_number (m e : Z) :
  e <= 0 -> truncate (make_number m e) = Some (Z.quot m (2 ^ (- e))).
Proof.
  intros He. unfold make_number.
  destruct (Z.leb_spec 0 e).
  - assert (e = 0) as -> by lia. simpl. f_equal. rewrite Z.quot_1_r. lia.
  - assert (Hp : 0 < 2 ^ (- e)) by (apply Z.pow_pos_nonneg; lia).
    destruct (Z.eqb_spec (m mod 2 ^ (- e)) 0) as [Hmod | Hmod]; cbn [truncate]; f_equal.
    + apply Z.mod_divide in Hmod as [c ->]; [| lia].
      rewrite Z.div_mul, Z.quot_mul by lia. reflexivity.
    + pose proof (trailing_zeros_nonneg m) as Ht0.
      pose proof (trailing_zeros_divide m) as Hdiv.
      set (t := trailing_zeros m) in *.
      assert (Ht : t < - e).
      { destruct (Z.lt_ge_cases t (- e)) as [|Hge]; [assumption |]. exfalso. apply Hmod.
        rewrite Hdiv. replace t with (t - - e + - e) at 2 by lia.
        rewrite Z.pow_add_r by lia. rewrite Z.mul_assoc. apply Z.mod_mul. lia. }
      rewrite Z2Pos.id by lia.
      rewrite Hdiv at 2.
      replace (- e) with (- e - t + t) at 2 by lia.
      rewrite Z.pow_add_r by lia.
      rewrite Z.quot_mul_cancel_r; [reflexivity | | ];
        apply Z.pow_nonzero; lia.
Qed.

Lemma nearest_even_between (x d lo hi : Z) :
  0 < d -> lo * d <= x <= hi * d -> lo <= nearest_even x d <= hi.
Proof.
  intros Hd [Hlo Hhi]. unfold nearest_even.
  pose proof (Z.div_mod x d ltac:(lia)) as Hdm.
  pose proof (Z.mod_pos_bound x d Hd) as Hmod.
  destruct (_ || _) eqn:Hup.
  - apply orb_prop in Hup as [Hup | Hup].
    + apply Z.ltb_lt in Hup. nia.
    + apply andb_prop in Hup as [Hup _]. apply Z.eqb_eq in Hup. nia.
  - nia.
Qed.

Lemma log2_ratio_below (a d : Z) :
  0 < a -> 0 < d -> a < 2 ^ 53 * d -> log2_ratio a d <= 52.
Proof.
  intros Ha Hd Hlt. unfold log2_ratio.
  pose proof (Z.log2_nonneg d) as Hld.
  pose proof (Z.log2_spec d Hd) as [_ Hdup].
  assert (Hla : Z.log2 a < Z.log2 d + 54).
  { apply Z.log2_lt_pow2; [assumption |].
    replace (Z.log2 d + 54) with (53 + Z.succ (Z.log2 d)) by lia.
    rewrite Z.pow_add_r by lia. nia. }
  remember (Z.log2 a - Z.log2 d) as est eqn:Eest.
  destruct (Z.ltb_spec (a * 2 ^ Z.max 0 (- est)) (d * 2 ^ Z.max 0 est)) as [_ | Hge]; [lia |].
  destruct (Z.le_gt_cases est 52) as [| Hest]; [assumption | exfalso].
  assert (est = 53) as Hest' by lia. rewrite Hest' in Hge.
  change (Z.max 0 (- 53)) with 0 in Hge. change (Z.max 0 53) with 53 in Hge.
  rewrite Z.pow_0_r in Hge. lia.
Qed.

(** A rational whose magnitude lies between two integers below 2^53 is
    rounded to a value between them, on a grid of [2^-k]. *)
Lemma to_number_between (n d lo hi : Z) :
  0 < d -> n <> 0 -> 0 <= lo -> lo * d <= Z.abs n <= hi * d -> hi < 2 ^ 53 ->
  exists q k, 0 <= k /\ to_number n d = make_number (Z.sgn n * q) (- k)
    /\ lo * 2 ^ k <= q <= hi * 2 ^ k.
Proof.
  intros Hd Hn Hlo Hbounds Hhi.
  assert (H53 : 2 ^ 53 = 9007199254740992) by reflexivity.
  unfold to_number.
  destruct (Z.eqb_spec (Z.abs n) 0) as [H0 | H0]; [lia |].
  assert (Ha : 0 < Z.abs n) by lia.
  assert (Hbelow : Z.abs n < 2 ^ 53 * d) by nia.
  pose proof (log2_ratio_below _ _ Ha Hd Hbelow) as Hl.
  set (l := log2_ratio (Z.abs n) d) in *. clearbody l.
  set (u := Z.max (l - 52) (-1074)).
  assert (Hu : -1074 <= u <= 0) by lia.
  rewrite (Z.max_r 0 (- u)) by lia. rewrite (Z.max_l 0 u) by lia.
  rewrite Z.pow_0_r, Z.mul_1_r.
  assert (Hp : 0 < 2 ^ (- u)) by (apply Z.pow_pos_nonneg; lia).
  set (q := nearest_even (Z.abs n * 2 ^ (- u)) d).
  assert (Hq : lo * 2 ^ (- u) <= q <= hi * 2 ^ (- u)).
  { apply nearest_even_between; [assumption |]. nia. }
  assert (Hfinite : (1024 <? Z.log2 q + 1 + u) = false).
  { apply Z.ltb_ge. destruct (Z.eq_dec q 0) as [-> | Hq0]; [simpl; lia |].
    assert (Z.log2 q < 53 + - u); [| lia].
    apply Z.log2_lt_pow2; [nia |]. rewrite Z.pow_add_r by lia. nia. }
  rewrite Hfinite. exists q, (- u). rewrite Z.opp_involutive. auto with lia.
Qed.

(** Rounding a rational between two integers of at most 53 bits to a
    double, and dropping the fraction, gives an integer between them. *)
Lemma truncate_to_number (n d lo hi : Z) :
  0 < d -> lo * d <= n <= hi * d -> - 2 ^ 53 < lo -> hi < 2 ^ 53 ->
  exists t, truncate (to_number n d) = Some t /\ lo <= t <= hi.
Proof.
  intros Hd Hn Hlo Hhi.
  destruct (Z.lt_total n 0) as [Hneg | [-> | Hpos]].
  - destruct (to_number_between n d (Z.max 0 (- hi)) (- lo)) as (q & k & Hk & -> & Hq);
      [lia | lia | lia | nia | lia |].
    rewrite truncate_make_number, Z.opp_involutive by lia.
    rewrite (Z.sgn_neg n) by assumption.
    assert (Hp : 0 < 2 ^ k) by (apply Z.pow_pos_nonneg; lia).
    eexists. split; [reflexivity |].
    replace (-1 * q) with (- q) by lia.
    rewrite Z.quot_opp_l by lia. rewrite Z.quot_div_nonneg by nia.
    pose proof (Z.div_mod q (2 ^ k) ltac:(lia)).
    pose proof (Z.mod_pos_bound q (2 ^ k) Hp). nia.
  - exists 0. split; [reflexivity | nia].
  - destruct (to_number_between n d (Z.max 0 lo) hi) as (q & k & Hk & -> & Hq);
      [lia | lia | lia | nia | lia |].
    rewrite truncate_make_number, Z.opp_involutive by lia.
    rewrite (Z.sgn_pos n) by assumption.
    assert (Hp : 0 < 2 ^ k) by (apply Z.pow_pos_nonneg; lia).
    eexists. split; [reflexivity |].
    rewrite Z.mul_1_l. rewrite Z.quot_div_nonneg by nia.
    pose proof (Z.div_mod q (2 ^ k) ltac:(lia)).
    pose proof (Z.mod_pos_bound q (2 ^ k) Hp). nia.
Qed.

(** ** Pagination *)

Example parseInt_examples :
  parseInt (VStr "  42px") = Fin 42 /\ parseInt (VStr "0x1F") = Fin 31
  /\ parseInt (VStr "-3") = Fin (-3) /\ parseInt (VStr "abc") = NaN
  /\ parseInt (VStr "") = NaN /\ parseInt VNull = NaN
  /\ parseInt (VNum (Fin 17)) = Fin 17 /\ parseInt (VNum (Fin (15 * 10 ^ 20))) = Fin 1
  /\ parseInt (VNum (Infinity false)) = NaN
  /\ parseInt (VNum (Frac 27 1)) = Fin 13
  /\ parseInt (VNum (to_number 5 (10 ^ 7))) = Fin 5
  /\ parseInt (VStr "9007199254740993") = Fin 9007199254740992
  /\ parseInt (VStr (Scenario.no_break_space +:+ "2")) = Fin 2
  /\ parseInt (VStr (Scenario.nines 310)) = Infinity false.
Proof. vm_compute. repeat split. Qed.

(** [parseInt] yields NaN, an integer or an infinity, never a fraction. *)
Lemma parseInt_string_cases (s : string) :
  parseInt_string s = NaN
  \/ (exists z, parseInt_string s = Fin z)
  \/ (exists negative, parseInt_string s = Infinity negative).
Proof.
  unfold parseInt_string.
  destruct (read_sign _) as [sign s1], (read_radix _) as [radix s2].
  destruct (parse_digits _ _ _) as [n |]; [| auto].
  destruct (to_number_integer (sign * n)) as [(z' & -> & _) | [-> _]]; eauto.
Qed.

Lemma parseInt_cases (v : value) :
  parseInt v = NaN
  \/ (exists z, parseInt v = Fin z)
  \/ (exists negative, parseInt v = Infinity negative).
Proof.
  destruct v; simpl; auto using parseInt_string_cases.
Qed.

(** *** Decimal numerals are read back *)

Lemma pretty_N_char_digit (d : N) :
  (d < 10)%N ->
  is_decimal (pretty_N_char d) = true
  /\ digit_value (pretty_N_char d) = Some (Z.of_N d).
Proof.
  intros Hd.
  assert (d = 0 \/ d = 1 \/ d = 2 \/ d = 3 \/ d = 4 \/ d = 5 \/ d = 6 \/ d = 7
          \/ d = 8 \/ d = 9)%N as Hcases by lia.
  repeat (destruct Hcases as [-> | Hcases]; [split; reflexivity |]).
  subst d. split; reflexivity.
Qed.

(** The decimal rendering of a positive number is a non-empty string of
    digits, and reading it back continues the accumulator with that number. *)
Lemma pretty_N_go_digits (x : N) (s : string) (acc : option Z) :
  (0 < x)%N ->
  all_decimal s = true ->
  all_decimal (pretty_N_go x s) = true
  /\ pretty_N_go x s <> ""
  /\ exists m, parse_digits 10 (pretty_N_go x s) acc
               = parse_digits 10 s (Some (default 0 acc * m + Z.of_N x)).
Proof.
  revert s acc. induction (N.lt_wf_0 x) as [x _ IH]. intros s acc Hx Hs.
  rewrite pretty_N_go_step by assumption.
  destruct (pretty_N_char_digit (x `mod` 10)%N) as [Hdec Hval].
  { apply N.mod_lt. lia. }
  assert (Hs' : all_decimal (String (pretty_N_char (x `mod` 10)) s) = true).
  { simpl. rewrite Hdec, Hs. reflexivity. }
  assert (Hstep : forall a, parse_digits 10 (String (pretty_N_char (x `mod` 10)) s) (Some a)
                  = parse_digits 10 s (Some (a * 10 + Z.of_N (x `mod` 10)))).
  { intros a. simpl. rewrite Hval.
    destruct (Z.ltb_spec (Z.of_N (x `mod` 10)) 10) as [_ | Hge]; [reflexivity |].
    pose proof (N.mod_lt x 10). lia. }
  destruct (N.eq_dec (x `div` 10)%N 0%N) as [Hq | Hq].
  - rewrite Hq, pretty_N_go_0. split; [exact Hs' | split; [discriminate |]].
    exists 10. simpl. rewrite Hval.
    assert (x `mod` 10 = x)%N as Hsmall by (apply N.mod_small; apply N.div_small_iff in Hq; lia).
    rewrite Hsmall in *.
    destruct (Z.ltb_spec (Z.of_N x) 10) as [_ | Hge]; [reflexivity |].
    apply N.div_small_iff in Hq; lia.
  - destruct (IH (x `div` 10)%N) with (s := String (pretty_N_char (x `mod` 10)) s) (acc := acc)
      as (Hall & Hne & m & Hparse).
    + apply N.div_lt; lia.
    + by apply N.neq_0_lt_0.
    + exact Hs'.
    + split; [exact Hall | split; [exact Hne |]].
      exists (m * 10). rewrite Hparse, Hstep. do 2 f_equal.
      pose proof (N.div_mod x 10 ltac:(lia)) as Hdm.
      generalize (default 0 acc). intros a.
      assert (Z.of_N x = 10 * Z.of_N (x `div` 10)%N + Z.of_N (x `mod` 10)%N) as -> by lia.
      ring.
Qed.

Lemma decimal_not_space (c : ascii) (t : string) :
  is_decimal c = true ->
  trim_start (String c t) = String c t /\ read_sign (String c t) = (1, String c t).
Proof.
  destruct c as [[] [] [] [] [] [] [] []]; try discriminate; intros _;
    (split; [destruct t as [|b [|d t]]; reflexivity | reflexivity]).
Qed.

Lemma decimal_radix (t : string) :
  all_decimal t = true -> read_radix t = (10, t).
Proof.
  destruct t as [|c t]; [reflexivity |]. simpl. intros [Hc Ht]%andb_prop.
  destruct c as [[] [] [] [] [] [] [] []]; try discriminate; try reflexivity.
  destruct t as [|c' t]; [reflexivity |]. simpl in Ht. apply andb_prop in Ht as [Hc' _].
  destruct c' as [[] [] [] [] [] [] [] []]; try discriminate; reflexivity.
Qed.

Lemma parseInt_string_decimal (t : string) (n : Z) :
  all_decimal t = true -> t <> "" -> parse_digits 10 t None = Some n ->
  parseInt_string t = to_number n 1.
Proof.
  intros Hall Hne Hparse. destruct t as [|c t]; [done |].
  pose proof Hall as Hall'. simpl in Hall'. apply andb_prop in Hall' as [Hc _].
  destruct (decimal_not_space c t Hc) as [Htrim Hsign].
  unfold parseInt_string.
  rewrite Htrim, Hsign. cbv beta iota zeta.
  rewrite (decimal_radix _ Hall), Hparse. f_equal. lia.
Qed.

(** A positive integer below 2^53, written in decimal, is read back as
    itself. *)
Lemma parseInt_decimal (k : Z) :
  0 < k < 2 ^ 53 -> parseInt (VStr (pretty k)) = Fin k.
Proof.
  intros Hk. destruct k as [|p|p]; try lia.
  change (pretty (Z.pos p)) with (pretty (N.pos p)).
  unfold pretty, pretty_N. destruct (decide _) as [|_]; [done |].
  destruct (pretty_N_go_digits (N.pos p) "" None) as (Hall & Hne & m & Hparse);
    [lia | reflexivity |].
  simpl in Hparse. cbn [parseInt].
  rewrite (parseInt_string_decimal _ _ Hall Hne Hparse).
  apply to_number_exact. lia.
Qed.

(** *** Parse, with a fallback *)

Lemma num_or_cases (v : value) (fallback : Z) :
  fallback <> 0 -> whole_or_infinite (num_or (parseInt v) (Fin fallback)).
Proof.
  intros Hf. unfold num_or, whole_or_infinite.
  destruct (parseInt_cases v) as [-> | [[z ->] | [s ->]]]; simpl; eauto.
  destruct (Z.eqb_spec z 0); simpl; eauto.
Qed.

Lemma num_or_positive (v : value) (fallback : Z) :
  0 < fallback ->
  num_negative (parseInt v) = false -> is_infinite (parseInt v) = false ->
  exists a, num_or (parseInt v) (Fin fallback) = Fin a /\ 0 < a.
Proof.
  intros Hf Hneg Hinf. unfold num_or.
  destruct (parseInt_cases v) as [-> | [[z Hz] | [s Hs]]]; rewrite ?Hz, ?Hs in *;
    simpl in *; [eauto | | discriminate].
  apply Z.ltb_ge in Hneg.
  destruct (Z.eqb_spec z 0); simpl; eauto with lia.
Qed.

(** Below 2^53 the subtraction and the product of the skip are exact. *)
Lemma skip_exact (a b : Z) :
  Z.abs (a - 1) < 2 ^ 53 -> Z.abs ((a - 1) * b) < 2 ^ 53 ->
  num_mul (num_sub (Fin a) (Fin 1)) (Fin b) = Fin ((a - 1) * b).
Proof.
  intros Ha Hab. cbn [num_sub]. rewrite to_number_exact by assumption.
  cbn [num_mul]. by rewrite to_number_exact.
Qed.

(** From a positive page number and page size the skip is not negative,
    whatever the rounding makes of it. *)
Lemma skip_not_negative (a b : Z) :
  0 < a -> 0 < b -> num_negative (num_mul (num_sub (Fin a) (Fin 1)) (Fin b)) = false.
Proof.
  intros Ha Hb. cbn [num_sub].
  destruct (to_number_integer (a - 1)) as [(x & -> & Hpos & _ & Hzero & _) | [-> _]].
  - cbn [num_mul].
    assert (0 <= x)
      by (destruct (Z.eq_dec a 1); [rewrite Hzero; lia | specialize (Hpos ltac:(lia)); lia]).
    destruct (to_number_integer (x * b)) as [(y & -> & Hpos' & _ & Hzero' & _) | [-> _]]; simpl.
    + apply Z.ltb_ge. destruct (Z.eq_dec x 0) as [-> | ?]; [rewrite Hzero'; lia |].
      specialize (Hpos' ltac:(nia)). lia.
    + apply Z.ltb_ge. nia.
  - simpl. destruct (Z.eqb_spec b 0); [lia |].
    destruct (Z.ltb_spec (a - 1) 0), (Z.ltb_spec b 0); try lia. reflexivity.
Qed.

(** The defaults of the parameter list are the fallbacks of the parsing, so
    a parameter left out reads like one that does not parse. *)
Lemma default_page_number (v : value) :
  num_or (parseInt (param_default v (VNum (Fin 1)))) (Fin 1) = num_or (parseInt v) (Fin 1).
Proof. destruct v; reflexivity. Qed.

Lemma default_page_size (v : value) :
  num_or (parseInt (param_default v (VNum (Fin 5)))) (Fin 5) = num_or (parseInt v) (Fin 5).
Proof. destruct v; reflexivity. Qed.

(** C5, as stated, fails: a negative page number is parsed and kept, and the
    skip computed from it is negative. *)
Lemma paginate_negative_page :
  paginate (VStr "-3") (VNum (Fin 5))
  = {| page_number := Fin (-3); page_size := Fin 5; skip := Fin (-20); limit := Fin 5 |}
  /\ ~ clamped (paginate (VStr "-3") (VNum (Fin 5))).
Proof.
  split; [vm_compute; reflexivity |].
  intros [[z [Hz Hpos]] _]. vm_compute in Hz. injection Hz as <-. lia.
Qed.

Example paginate_negative_size :
  limit (paginate (VNum (Fin 1)) (VNum (Fin (-5)))) = Fin (-5).
Proof. vm_compute. reflexivity. Qed.

(** Nor is there a bound from above: a numeral of 310 digits is read as
    Infinity, and with it the skip of the first page is NaN. *)
Example paginate_infinite_size :
  paginate (VStr "1") (VStr (Scenario.nines 310))
  = {| page_number := Fin 1; page_size := Infinity false; skip := NaN;
       limit := Infinity false |}.
Proof. vm_compute. reflexivity. Qed.

(** Beyond 2^53 the page number is the double nearest to the numeral. *)
Example paginate_rounded_page :
  paginate (VStr "9007199254740993") (VStr "1")
  = {| page_number := Fin 9007199254740992; page_size := Fin 1;
       skip := Fin 9007199254740991; limit := Fin 1 |}.
Proof. vm_compute. reflexivity. Qed.

(** C5 (amended): for every input the effective page number and page size
    are what [parseInt] reads, or the fallback (1, resp. 5) when it reads
    NaN or 0; they are never 0, never NaN and never a fraction, the limit is
    the page size, and the skip is the rounded product
    [(pageNumber - 1) * pageSize], which is exact below 2^53.  Nothing is
    clamped: a negative integer is kept, and so is the infinity that a
    numeral beyond the range of doubles is read as.  Page number and size
    are positive integers, and skip and limit not negative, whenever
    [parseInt] reads neither a negative number nor an infinity from either
    input. *)
Theorem paginate_fallback (pageNumber pageSize : value) :
  let pg := paginate pageNumber pageSize in
  let n := parseInt pageNumber in
  let s := parseInt pageSize in
  page_number pg = (if truthy (VNum n) then n else Fin 1)
  /\ page_size pg = (if truthy (VNum s) then s else Fin 5)
  /\ whole_or_infinite (page_number pg) /\ whole_or_infinite (page_size pg)
  /\ limit pg = page_size pg
  /\ (forall a b, page_number pg = Fin a -> page_size pg = Fin b ->
        Z.abs (a - 1) < 2 ^ 53 -> Z.abs ((a - 1) * b) < 2 ^ 53 ->
        skip pg = Fin ((a - 1) * b))
  /\ (num_negative n = false -> num_negative s = false ->
      is_infinite n = false -> is_infinite s = false ->
      clamped pg).
Proof.
  intros pg n s. subst pg n s. unfold paginate. cbn [page_number page_size skip limit].
  split; [reflexivity |]. split; [reflexivity |].
  split; [by apply num_or_cases |]. split; [by apply num_or_cases |].
  split; [reflexivity |]. split.
  - intros a b -> ->. apply skip_exact.
  - intros Hn Hs Hin His. unfold clamped, positive_integer.
    cbn [page_number page_size skip limit].
    destruct (num_or_positive pageNumber 1 ltac:(lia) Hn Hin) as (a & -> & Ha).
    destruct (num_or_positive pageSize 5 ltac:(lia) Hs His) as (b & -> & Hb).
    split; [eauto |]. split; [eauto |].
    split; [by apply skip_not_negative |].
    apply Z.ltb_ge. lia.
Qed.

Lemma paginate_fallback_witness :
  clamped (paginate (VStr "abc") (VNum (Fin 0))).
Proof.
  apply (paginate_fallback (VStr "abc") (VNum (Fin 0))); vm_compute; reflexivity.
Defined.

(** ** The age filter of GetAllUsers *)

Lemma day_of_month_bounds (day : Z) : 1 <= day_of_month day <= 31.
Proof.
  unfold day_of_month. cbv zeta. Z.div_mod_to_equations. lia.
Qed.

(** Midnight of a day is a date, or Invalid Date. *)
Lemma setHours_0_cases (now : date) :
  setHours_0 now = InvalidDate
  \/ exists day, setHours_0 now = At day 0 /\ day_in_range day.
Proof.
  destruct now as [|day ms]; [by left |].
  unfold setHours_0, time_clip, day_in_range. rewrite Z.add_0_r.
  destruct (Z.leb_spec (Z.abs (day * 86400000)) 8640000000000000); eauto.
Qed.

(** Reading the day of the month, subtracting a whole number and writing it
    back moves the date by that many days, whatever day of the month it is;
    where the difference is rounded, both dates are out of range. *)
Lemma setDate_getDate_minus (now : date) (z : Z) :
  let today := setHours_0 now in
  setDate today (num_sub (getDate today) (Fin z)) = days_before today (Fin z).
Proof.
  intros today. subst today.
  destruct (setHours_0_cases now) as [-> | (day & -> & Hday)]; [reflexivity |].
  unfold day_in_range in Hday.
  pose proof (day_of_month_bounds day) as Hdom.
  assert (H53 : 2 ^ 53 = 9007199254740992) by reflexivity.
  cbn [getDate num_sub]. unfold setDate, days_before, time_clip.
  rewrite !Z.add_0_r.
  destruct (to_number_integer (day_of_month day - z))
    as [(z' & -> & _ & _ & _ & Hsmall & Hbig) | [-> Hbig]]; cbn [truncate].
  - destruct (Z.lt_ge_cases (Z.abs (day_of_month day - z)) (2 ^ 53)) as [Hlt | Hge].
    + rewrite (Hsmall Hlt).
      replace (day - day_of_month day + 1 + (day_of_month day - z) - 1) with (day - z) by lia.
      rewrite ?Z.add_0_r. reflexivity.
    + specialize (Hbig Hge). rewrite H53 in *. rewrite ?Z.add_0_r.
      destruct (Z.leb_spec (Z.abs ((day - day_of_month day + 1 + z' - 1) * 86400000))
                  8640000000000000); [lia |].
      destruct (Z.leb_spec (Z.abs ((day - z) * 86400000)) 8640000000000000); [lia |].
      reflexivity.
  - rewrite H53 in *. rewrite ?Z.add_0_r.
    destruct (Z.leb_spec (Z.abs ((day - z) * 86400000)) 8640000000000000); [lia |].
    reflexivity.
Qed.

(** An infinite number of days leaves no date. *)
Lemma setDate_infinite (d : date) (n : number) :
  is_infinite n = true -> setDate d (num_sub (getDate d) n) = InvalidDate.
Proof.
  destruct n as [| negative | |]; try discriminate. intros _.
  destruct d as [|day ms]; reflexivity.
Qed.

(** For any finite number of days, the date moves by that number rounded
    down or up to a whole number. *)
Lemma setDate_getDate_minus_rounded (now : date) (n : number) :
  let today := setHours_0 now in
  num_gt0 n = true -> is_infinite n = false -> ceiling_of n < 2 ^ 53 ->
  exists k, floor_of n <= k <= ceiling_of n
    /\ setDate today (num_sub (getDate today) n) = days_before today (Fin k).
Proof.
  intros today Hpos Hfinite Hceil. subst today.
  assert (H53 : 2 ^ 53 = 9007199254740992) by reflexivity.
  assert (Hfraction : exists num den,
            fraction n = (num, den) /\ 0 < den /\ 0 < num
            /\ forall dom, num_sub (Fin dom) n = to_number (dom * den - num) den).
  { destruct n as [| |z|m e]; try discriminate; simpl in Hpos; apply Z.ltb_lt in Hpos.
    - exists z, 1. split; [reflexivity |]. split; [lia |]. split; [lia |].
      intros dom. cbn [num_sub]. f_equal. lia.
    - exists m, (2 ^ Z.pos e). split; [reflexivity |].
      split; [apply Z.pow_pos_nonneg; lia |]. split; [lia |].
      intros dom. cbn [num_sub fraction]. f_equal; lia. }
  destruct Hfraction as (num & den & Hfrac & Hden & Hnum & Hsub).
  unfold floor_of, ceiling_of in *. rewrite Hfrac in *.
  pose proof (Z.div_mod num den ltac:(lia)) as Hdm.
  pose proof (Z.mod_pos_bound num den Hden) as Hmod.
  pose proof (Z.div_mod (- num) den ltac:(lia)) as Hdm'.
  pose proof (Z.mod_pos_bound (- num) den Hden) as Hmod'.
  destruct (setHours_0_cases now) as [-> | (day & -> & Hday)].
  { exists (num / den). split; [nia | reflexivity]. }
  pose proof (day_of_month_bounds day) as Hdom.
  cbn [getDate]. rewrite Hsub.
  destruct (truncate_to_number (day_of_month day * den - num) den
              (day_of_month day - - (- num / den)) (day_of_month day - num / den))
    as (t & Ht & Hbounds); [lia | nia | nia | nia |].
  exists (day_of_month day - t). split; [lia |].
  unfold setDate, days_before. rewrite Ht. do 2 f_equal. lia.
Qed.

(** Inside the range of dates, midnight moves back to midnight. *)
Lemma days_before_midnight (day z : Z) :
  day_in_range (day - z) ->
  days_before (At day 0) (Fin z) = At (day - z) 0.
Proof.
  unfold day_in_range, days_before, time_clip. intros Hr.
  rewrite Z.add_0_r.
  destruct (Z.leb_spec (Z.abs ((day - z) * 86400000)) 8640000000000000); [reflexivity | lia].
Qed.

Lemma setHours_0_midnight (day ms : Z) :
  day_in_range day -> setHours_0 (At day ms) = At day 0.
Proof.
  unfold day_in_range, setHours_0, time_clip. intros Hr.
  rewrite Z.add_0_r.
  destruct (Z.leb_spec (Z.abs (day * 86400000)) 8640000000000000); [reflexivity | lia].
Qed.

(** Each bound is decided by its own parameter. *)
Lemma createdOnFilter_lte (today : date) (minAge maxAge : value) :
  lte (createdOnFilter today minAge maxAge)
  = if is_number minAge && gt0 minAge
    then Some (setDate today (num_sub (getDate today) (as_number minAge)))
    else None.
Proof.
  unfold createdOnFilter.
  destruct (is_number minAge && gt0 minAge), (is_number maxAge && gt0 maxAge); reflexivity.
Qed.

Lemma createdOnFilter_gte (today : date) (minAge maxAge : value) :
  gte (createdOnFilter today minAge maxAge)
  = if is_number maxAge && gt0 maxAge
    then Some (setDate today (num_sub (getDate today) (as_number maxAge)))
    else None.
Proof.
  unfold createdOnFilter.
  destruct (is_number minAge && gt0 minAge), (is_number maxAge && gt0 maxAge); reflexivity.
Qed.

Lemma users_match_createdOn (today : date) (p : list_params) :
  m_createdOn (users_match today p)
  = if has_keys (createdOnFilter today (minAge p) (maxAge p))
    then Some (createdOnFilter today (minAge p) (maxAge p)) else None.
Proof.
  unfold users_match.
  destruct (truthy (keywords p)), (truthy (role p)),
    (has_keys (createdOnFilter today (minAge p) (maxAge p))); reflexivity.
Qed.


(** On another day of the month the same [minAge] moves the bound by
    another number of days: on the 5th, one day and a half is two days, and
    on the 1st it is one day. *)
Example age_bounds_by_day_of_month :
  getDate (At 20762 0) = Fin 5
  /\ lte (createdOnFilter (At 20762 0) (VNum Scenario.a_day_and_a_half) VUndefined)
     = Some (At 20760 0)
  /\ getDate (At 20758 0) = Fin 1
  /\ lte (createdOnFilter (At 20758 0) (VNum Scenario.a_day_and_a_half) VUndefined)
     = Some (At 20757 0).
Proof. vm_compute. repeat split. Qed.



(** C10: the age filter reads [minAge] and [maxAge] only when they are of
    type number.  For any other input, a numeric string such as ["5"]
    included, the bound is left out (and nothing is thrown: the filter is
    built all the same), whereas the same string given as a page size is
    parsed to 5. *)
Theorem age_filter_numbers_only (today : date) (minAge maxAge : value) :
  let f := createdOnFilter today minAge maxAge in
  (is_number minAge = false -> lte f = None)
  /\ (is_number maxAge = false -> gte f = None)
  /\ (lte f <> None -> is_number minAge = true)
  /\ (gte f <> None -> is_number maxAge = true)
  /\ lte (createdOnFilter today (VStr "5") maxAge) = None
  /\ gte (createdOnFilter today minAge (VStr "5")) = None
  /\ page_size (paginate (VNum (Fin 1)) (VStr "5")) = Fin 5.
Proof.
  intros f. subst f. rewrite createdOnFilter_lte, createdOnFilter_gte.
  repeat split.
  - intros ->. reflexivity.
  - intros ->. reflexivity.
  - destruct (is_number minAge); [reflexivity | intros []; reflexivity].
  - destruct (is_number maxAge); [reflexivity | intros []; reflexivity].
  - apply createdOnFilter_lte.
  - apply createdOnFilter_gte.
Qed.

Lemma age_filter_numbers_only_witness :
  is_number (VStr "5") = false
  /\ lte (createdOnFilter (At 20759 0) (VStr "5") VNull) = None.
Proof.
  split; [reflexivity |].
  apply (proj1 (age_filter_numbers_only (At 20759 0) (VStr "5") VNull)).
  reflexivity.
Defined.

Section Gateway.
Context `{Driver}.

(** When it can connect, [connectToDatabase] succeeds and touches neither the
    collection nor the clock. *)
Lemma connect_ok (w : World) :
  can_connect w = true ->
  exists w', connectToDatabase w = (Return tt, w')
    /\ Users w' = Users w /\ clock w' = clock w /\ next_id w' = next_id w.
Proof.
  unfold can_connect, connectToDatabase. run. intros Hc.
  destruct (_db w); [eauto |]. simpl in Hc.
  destruct (env_missing (env_DB_URL w)); [discriminate |].
  destruct (env_missing (env_DB_NAME w)); [discriminate |].
  simpl in Hc. rewrite Hc. simpl. eauto.
Qed.

(** Connecting never changes the collection, whether it succeeds or not. *)
Lemma connect_frame (w : World) :
  Users (connectToDatabase w).2 = Users w.
Proof.
  unfold connectToDatabase. run.
  destruct (_db w); [reflexivity |].
  destruct (env_missing (env_DB_URL w)); [reflexivity |].
  destruct (env_missing (env_DB_NAME w)); [reflexivity |].
  destruct (reachable w); reflexivity.
Qed.

End Gateway.

(** ** GetAllUsers: one page *)

Section Listing.
Context `{Driver}.

(** [Math.ceil(x / 5)] is the least number of pages of five that hold [x]
    documents. *)
Lemma ceil_div_5 (x : Z) :
  exists pages, ceil_div (Fin x) (Fin 5) = Fin pages
    /\ 5 * (pages - 1) < x <= 5 * pages.
Proof.
  exists (- (- x / 5)). split; [reflexivity |].
  pose proof (Z.div_mod (- x) 5 ltac:(lia)).
  pose proof (Z.mod_pos_bound (- x) 5 ltac:(lia)).
  lia.
Qed.

Lemma parseInt_defined (v fallback : value) (z : Z) :
  parseInt v = Fin z -> param_default v fallback = v.
Proof.
  destruct v; try reflexivity. vm_compute. discriminate.
Qed.

(** The pipeline of the second page of five. *)
Lemma second_page_pipeline (m : match_doc) (sortBy : value) (docs : list doc) :
  let pg := {| page_number := Fin 2; page_size := Fin 5; skip := Fin 5; limit := Fin 5 |} in
  run_pipeline (users_pipeline m (getSortOptions sortBy (VStr "user")) pg) docs
  = Return (take 5 (drop 5
      (sort_docs (getSortOptions sortBy (VStr "user"))
         (List.filter (matches (ByMatch m)) docs)))).
Proof.
  intros pg. unfold users_pipeline.
  rewrite getSortOptions_user_nonempty. reflexivity.
Qed.

(** C4: called with page size 5 and page number 2 (as numbers, or as strings
    that parse to them), [GetAllUsers] returns the documents of the matching
    set, in sorted order, after the first 5 and up to 5 of them, and reports
    [totalUsers], the size of the whole matching set, and
    [totalPages = ceil(totalUsers / 5)]. *)
Theorem GetAllUsers_second_page (p : list_params) (w : World) :
  parseInt (pageSize p) = Fin 5 ->
  parseInt (pageNumber p) = Fin 2 ->
  can_connect w = true ->
  let today := setHours_0 (clock w) in
  let matching := List.filter (matches (ByMatch (users_match today p))) (Users w) in
  let ordered := sort_docs (getSortOptions (sortBy p) (VStr "user")) matching in
  exists r, (GetAllUsers p w).1 = Return r
    /\ users r = take 5 (drop 5 ordered)
    /\ (length (users r) <= 5)%nat
    /\ totalUsers r = Fin (Z.of_nat (length matching))
    /\ exists pages, totalPages r = Fin pages
         /\ 5 * (pages - 1) < Z.of_nat (length matching) <= 5 * pages.
Proof.
  intros Hsize Hnum Hc today matching ordered.
  destruct (connect_ok w Hc) as (w' & Hconn & Husers & Hclock & _).
  destruct (ceil_div_5 (Z.of_nat (length matching))) as (pages & Hceil & Hbounds).
  unfold GetAllUsers.
  rewrite (parseInt_defined _ _ _ Hsize), (parseInt_defined _ _ _ Hnum).
  unfold paginate. rewrite Hsize, Hnum.
  change (num_or (Fin 2) (Fin 1)) with (Fin 2).
  change (num_or (Fin 5) (Fin 5)) with (Fin 5).
  change (num_mul (num_sub (Fin 2) (Fin 1)) (Fin 5)) with (Fin 5).
  unfold aggregate, countDocuments. run. rewrite Hconn. run.
  rewrite Hclock. fold today.
  unfold add_trace at 1. cbn [Users].
  rewrite Husers, second_page_pipeline. fold matching ordered. cbn.
  rewrite Husers. fold today matching. cbn in Hceil. rewrite Hceil.
  eexists. split; [reflexivity |]. cbn.
  repeat split; try apply Hbounds.
  - rewrite length_take. lia.
  - exists pages. split; [reflexivity | exact Hbounds].
Qed.

End Listing.

(** ** Single-user operations *)

Section UserOperations.
Context `{Driver}.

Lemma findOne_run (f : query) (excluded : list string) (w : World) :
  findOne f excluded w
  = (Return (project_out excluded <$> List.find (matches f) (Users w)),
     add_trace "findOne" w).
Proof. reflexivity. Qed.

Lemma find_no_match {A} (p : A -> bool) (l : list A) :
  (forall x, x ∈ l -> p x = false) -> List.find p l = None.
Proof.
  induction l as [|a l IH]; intros Hall; [reflexivity |].
  simpl. rewrite (Hall a) by constructor.
  apply IH. intros x Hx. apply Hall. by constructor.
Qed.

(** C6: [GetUserById] checks the shape of the identifier before anything
    else.  A malformed identifier makes it throw the invalid-identifier error
    with the process left as it was: no connection is opened and no request
    is sent.  A well-formed identifier that no stored document carries gives
    [null], not an error.  A document that is returned has no [password]
    field. *)
Theorem GetUserById_contract (id : value) (w : World) :
  (ObjectId_isValid id = false ->
     GetUserById id w = (Throw (Error "Invalid ObjectId format"), w))
  /\ (forall oid,
        ObjectId_isValid id = true -> ObjectId_new id = Some oid ->
        can_connect w = true ->
        (forall d, d ∈ Users w -> matches (ById oid) d = false) ->
        (GetUserById id w).1 = Return None)
  /\ (forall d, (GetUserById id w).1 = Return (Some d) -> d !! "password" = None).
Proof.
  unfold GetUserById. repeat split.
  - intros ->. reflexivity.
  - intros oid -> Hnew Hc Hnone.
    destruct (connect_ok w Hc) as (w' & Hconn & Husers & _).
    unfold construct_ObjectId. rewrite Hnew. run. rewrite Hconn. run.
    rewrite findOne_run. run.
    rewrite Husers, find_no_match by assumption. reflexivity.
  - intros d. destruct (ObjectId_isValid id); [| discriminate]. run.
    destruct (connectToDatabase w) as [[[] | err] w']; [| discriminate].
    destruct (construct_ObjectId id) as [oid | err]; [| discriminate].
    rewrite findOne_run. run.
    destruct (List.find _ _) as [d0 |]; [| discriminate].
    simpl. intros [= <-]. apply lookup_delete_eq.
Qed.

(** [RegisterUser] never returns and never writes: whatever the input, it
    throws, and the collection is what it was. *)
Lemma RegisterUser_never_persists (user : doc) (w : World) :
  (exists err, (RegisterUser user w).1 = Throw err)
  /\ Users (RegisterUser user w).2 = Users w.
Proof.
  unfold RegisterUser, fresh_ObjectId. run.
  pose proof (connect_frame w) as Hframe.
  destruct (connectToDatabase w) as [[[] | err] w']; simpl in Hframe; [| eauto].
  rewrite findOne_run. run.
  destruct (List.find _ _); run; simpl; eauto.
Qed.

(** Writing fields other than [_id] leaves [_id] alone. *)
Lemma apply_set_keeps_id (fields d : doc) :
  fields !! "_id" = None -> get "_id" (apply_set fields d) = get "_id" d.
Proof.
  intros Hnone. unfold get, apply_set.
  by rewrite lookup_union_r by (by rewrite lookup_fmap, Hnone).
Qed.

Lemma update_first_ids (p : doc -> bool) (fields : doc) (docs : list doc) :
  fields !! "_id" = None ->
  map (get "_id") (update_first p (apply_set fields) docs) = map (get "_id") docs.
Proof.
  intros Hnone. induction docs as [|d docs IH]; [reflexivity |].
  simpl. destruct (p d); simpl.
  - by rewrite apply_set_keeps_id.
  - by rewrite IH.
Qed.

Lemma update_first_pointwise (p : doc -> bool) (g : doc -> doc) (docs : list doc)
    (i : nat) (d' : doc) :
  update_first p g docs !! i = Some d' ->
  exists d, docs !! i = Some d /\ (d' = d \/ d' = g d).
Proof.
  revert i. induction docs as [|d docs IH]; intros i; [done |].
  simpl. destruct (p d).
  - destruct i; simpl; [intros [= <-] |]; eauto.
  - destruct i; simpl; [intros [= <-] |]; eauto.
Qed.

(** C9: [UpdateUser] takes [_id] out of the payload before the update: the
    fields handed to [$set] do not include [_id], every stored document is
    afterwards either as it was or rewritten with exactly those fields, and
    the identifiers of the stored documents are the same after the call as
    before, for every input. *)
Theorem UpdateUser_keeps_id (updatedUser : doc) (w : World) :
  let updateFields := (rest_without_id updatedUser).2 in
  let w' := (UpdateUser updatedUser w).2 in
  updateFields !! "_id" = None
  /\ (forall i d', Users w' !! i = Some d' ->
        exists d, Users w !! i = Some d
          /\ (d' = d \/ d' = apply_set updateFields d))
  /\ stored_ids w' = stored_ids w.
Proof.
  intros updateFields w'.
  assert (Hno : updateFields !! "_id" = None) by apply lookup_delete_eq.
  split; [exact Hno |].
  assert (Hcases : Users w' = Users w
            \/ exists p, Users w' = update_first p (apply_set updateFields) (Users w)).
  { subst w'. unfold UpdateUser, updateOne. run.
    pose proof (connect_frame w) as Hframe.
    destruct (connectToDatabase w) as [[[] | err] w1]; simpl in Hframe; [| auto].
    change (rest_without_id updatedUser)
      with (get "_id" updatedUser, updateFields).
    cbn iota beta.
    destruct (ObjectId_isValid _); simpl; [| auto].
    destruct (construct_ObjectId _) as [oid | err]; simpl; [| auto].
    destruct (List.find _ _) as [d |]; simpl; [| auto].
    destruct (refuses_set _ _); simpl; [auto |].
    right. eexists. rewrite Hframe. reflexivity. }
  split.
  - intros i d' Hi. destruct Hcases as [-> | [p ->]] in Hi; [eauto |].
    by apply update_first_pointwise in Hi.
  - unfold stored_ids. destruct Hcases as [-> | [p ->]]; [reflexivity |].
    by apply update_first_ids.
Qed.

End UserOperations.

(** ** The Identifier Codec *)

Section Codec.
Context `{Driver}.

Lemma hex24_not_empty (s : string) : is_hex24 s = true -> String.eqb s "" = false.
Proof. destruct s; [discriminate | reflexivity]. Qed.

(** C7: when the driver takes exactly the strings of 24 hexadecimal digits
    for valid, and builds an identifier from each of them, [newId] returns
    an identifier for every such string and throws the invalid-identifier
    error for every other string. *)
Theorem newId_hex24 :
  (forall s, ObjectId_isValid (VStr s) = is_hex24 s) ->
  (forall s, is_hex24 s = true -> is_Some (ObjectId_new (VStr s))) ->
  forall s : string,
    (is_hex24 s = true -> exists o, newId (VStr s) = Return o)
    /\ (is_hex24 s = false -> newId (VStr s) = Throw (Error "Invalid ObjectId string")).
Proof.
  intros Hvalid Hnew s. unfold newId, construct_ObjectId. rewrite Hvalid.
  split; intros Hs; rewrite Hs.
  - simpl. rewrite (hex24_not_empty s Hs). simpl.
    destruct (Hnew s Hs) as [o ->]. eauto.
  - rewrite orb_true_r. reflexivity.
Qed.

(** Whatever the driver accepts, [newId] refuses what is not a non-empty
    string. *)
Lemma newId_not_a_string (v : value) :
  is_string v = false -> newId v = Throw (Error "Invalid ObjectId string").
Proof.
  intros Hv. unfold newId. rewrite Hv. simpl. rewrite orb_true_r. reflexivity.
Qed.

(** [validId] answers 400 exactly when the constructor throws, and otherwise
    replaces the parameter by the identifier. *)
Lemma validId_cases (paramName : string) (req : http_request) :
  match ObjectId_new (get paramName (params req)) with
  | Some o =>
      validId paramName req
      = Next {| params := <[paramName := VId o]> (params req); body := body req |}
  | None =>
      validId paramName req
      = Responded {| status := 400;
                     json := ErrorBody (paramName +:+ " is not a valid ObjectId") |}
  end.
Proof.
  unfold validId, construct_ObjectId.
  destruct (ObjectId_new _); reflexivity.
Qed.

End Codec.

(** ** validBody *)

Section Validation.
Context `{Joi.Schema Sch}.

(** C8: for every schema and request, given that Joi honours the two options
    it is called with.  When the body breaks rules of the schema, the
    middleware answers 400 with an [errors] array that has, in order, one
    [{message, path, type}] entry for each violation, and the handler is not
    reached.  When it breaks none, the request goes on with its body
    replaced by the value Joi returns, which has no field outside the
    schema. *)
Theorem validBody_contract (schema : Sch) (req : http_request) :
  Joi.reports_all -> Joi.strips_unknown ->
  let r := Joi.validate schema (body req) validBody_options in
  let found := Joi.violations schema (body req) in
  (found <> [] ->
     validBody schema req
     = Responded {| status := 400; json := ErrorsBody (map entry_of found) |}
     /\ length (map entry_of found) = length found)
  /\ (found = [] ->
     validBody schema req = Next {| params := params req; body := Joi.validated r |}
     /\ forall k, is_Some (Joi.validated r !! k) -> k ∈ Joi.keys schema).
Proof.
  intros Hall Hstrip r found.
  pose proof (Hall schema (body req) validBody_options eq_refl eq_refl) as Herr.
  fold r found in Herr.
  unfold validBody. fold validBody_options. fold r. rewrite Herr.
  split; intros Hfound.
  - destruct found as [|d ds]; [done |]. split; [reflexivity |].
    apply length_map.
  - rewrite Hfound. split; [reflexivity |].
    intros k Hk. apply (Hstrip schema (body req) validBody_options k eq_refl Hk).
Qed.

End Validation.

(** ** The concrete environment at work *)

#[local] Existing Instance Reference.driver.
#[local] Existing Instance Reference.schema.

Lemma Reference_isValid_hex24 (s : string) :
  ObjectId_isValid (VStr s) = is_hex24 s.
Proof.
  simpl. unfold Reference.isValid, Reference.new.
  destruct (is_hex24 s); reflexivity.
Qed.

Lemma Reference_new_hex24 (s : string) :
  is_hex24 s = true -> is_Some (ObjectId_new (VStr s)).
Proof.
  intros Hs. simpl. unfold Reference.new. rewrite Hs. eauto.
Qed.

Lemma newId_hex24_witness :
  (exists o, newId (VStr "65a1b2c3d4e5f60718293a4b") = Return o)
  /\ newId (VStr "65a1b2c3") = Throw (Error "Invalid ObjectId string").
Proof.
  split.
  - apply (newId_hex24 Reference_isValid_hex24 Reference_new_hex24
             "65a1b2c3d4e5f60718293a4b").
    reflexivity.
  - apply (newId_hex24 Reference_isValid_hex24 Reference_new_hex24 "65a1b2c3").
    reflexivity.
Defined.

Lemma Reference_reports_all : @Joi.reports_all _ Reference.schema.
Proof.
  intros s b o Habort Hstrip. simpl. unfold Reference.validate.
  rewrite Habort, Hstrip. simpl. rewrite app_nil_r.
  destruct (Reference.all_violations s b); reflexivity.
Qed.

Lemma converted_declared (s : Reference.object_schema) (b : doc) (k : string) :
  is_Some (Reference.converted s b !! k) -> k ∈ Reference.declared s.
Proof.
  induction s as [|[key r] s IH]; simpl.
  - rewrite lookup_empty. by intros [? ?].
  - destruct (Reference.check_field key r b).1 as [v |].
    + destruct (decide (key = k)) as [-> | Hne].
      * intros _. constructor.
      * rewrite lookup_insert_ne by done. intros Hk. constructor. by apply IH.
    + intros Hk. constructor. by apply IH.
Qed.

Lemma Reference_strips_unknown : @Joi.strips_unknown _ Reference.schema.
Proof.
  intros s b o k Hstrip. simpl. unfold Reference.validate. rewrite Hstrip. simpl.
  apply converted_declared.
Qed.

Example loginSchema_two_violations :
  map entry_of (Joi.violations Reference.loginSchema {[ "password" := VStr "abc" ]})
  = [ {| e_message := Reference.quoted "email" +:+ " is required"; e_path := ["email"];
         e_type := "any.required" |};
      {| e_message := Reference.quoted "password"
                      +:+ " length must be at least 6 characters long";
         e_path := ["password"]; e_type := "string.min" |} ].
Proof. vm_compute. reflexivity. Qed.

Lemma validBody_contract_witness :
  let req := {| params := ∅; body := {[ "password" := VStr "abc"; "admin" := VBool true ]} |} in
  validBody Reference.loginSchema req
  = Responded {| status := 400;
                 json := ErrorsBody (map entry_of
                           (Joi.violations Reference.loginSchema (body req))) |}.
Proof.
  intros req.
  apply (validBody_contract Reference.loginSchema req
           Reference_reports_all Reference_strips_unknown).
  vm_compute. discriminate.
Defined.

Example validBody_strips :
  validBody Reference.loginSchema
    {| params := ∅;
       body := {[ "email" := VStr " ann@example.com "; "password" := VStr "s3cretpw";
                  "admin" := VBool true ]} |}
  = Next {| params := ∅;
            body := {[ "email" := VStr "ann@example.com"; "password" := VStr "s3cretpw" ]} |}.
Proof. vm_compute. reflexivity. Qed.

Lemma GetAllUsers_second_page_witness :
  let p := {| keywords := VUndefined; role := VUndefined; maxAge := VUndefined;
              minAge := VUndefined; sortBy := VStr "newest";
              pageSize := VStr "5"; pageNumber := VNum (Fin 2) |} in
  let w := Reference.connected
             [Reference.alice; Reference.bob; Reference.alice; Reference.bob;
              Reference.alice; Reference.bob; Reference.alice] in
  exists r, (GetAllUsers p w).1 = Return r
    /\ users r = [Reference.alice; Reference.alice]
    /\ totalUsers r = Fin 7.
Proof.
  intros p w.
  destruct (GetAllUsers_second_page p w eq_refl eq_refl eq_refl)
    as (r & Hrun & Husers & _ & Htotal & _).
  exists r. split; [exact Hrun |]. split.
  - rewrite Husers. vm_compute. reflexivity.
  - rewrite Htotal. vm_compute. reflexivity.
Defined.

Lemma GetUserById_contract_witness :
  GetUserById (VStr "not-an-id") (Reference.connected [Reference.alice])
  = (Throw (Error "Invalid ObjectId format"), Reference.connected [Reference.alice])
  /\ (GetUserById (VStr "65a1b2c3d4e5f60718293a4c")
        (Reference.connected [Reference.alice])).1 = Return None.
Proof.
  split.
  - apply (GetUserById_contract (VStr "not-an-id")). reflexivity.
  - apply (proj1 (proj2 (GetUserById_contract (VStr "65a1b2c3d4e5f60718293a4c")
                           (Reference.connected [Reference.alice])))
             {| toHexString := "65a1b2c3d4e5f60718293a4c" |});
      try reflexivity.
    intros d Hd. apply list_elem_of_singleton in Hd as ->. vm_compute. reflexivity.
Defined.

Example GetUserById_found :
  (GetUserById (VStr "65A1B2C3D4E5F60718293A4B")
     (Reference.connected [Reference.bob; Reference.alice])).1
  = Return (Some (delete "password" Reference.alice)).
Proof. vm_compute. reflexivity. Qed.

(** C1 fails on the code.  Registering a valid new user on a connected
    process throws instead of returning, the collection is left as it was,
    and fetching by the same e-mail afterwards finds nothing. *)
Theorem RegisterUser_then_fetch :
  let user : doc :=
    {[ "email" := VStr "carol@example.com"; "password" := VStr "s3cretpw";
       "givenName" := VStr "Carol"; "familyName" := VStr "Cole";
       "role" := VStr "User" ]} in
  let w := Reference.connected [Reference.alice] in
  (RegisterUser user w).1
  = Throw (Error "Failed to register user: resourceLimits is not defined")
  /\ Users (RegisterUser user w).2 = [Reference.alice]
  /\ trace (RegisterUser user w).2 = ["findOne"]
  /\ (GetUserByEmail (VStr " Carol@Example.com ") (RegisterUser user w).2).1 = Return None.
Proof. vm_compute. repeat split. Qed.

(** The server refuses the negative [$skip] that a negative page number
    leads to, and [GetAllUsers] fails as a whole. *)
Example GetAllUsers_negative_page :
  let p := {| keywords := VUndefined; role := VUndefined; maxAge := VUndefined;
              minAge := VUndefined; sortBy := VUndefined;
              pageSize := VUndefined; pageNumber := VStr "-3" |} in
  exists err, (GetAllUsers p (Reference.connected [Reference.alice])).1 = Throw err.
Proof. eexists. vm_compute. reflexivity. Qed.

Example UpdateUser_role :
  let w := (UpdateUser {[ "_id" := VStr "65a1b2c3d4e5f60718293a4c"; "role" := VStr "Developer" ]}
              (Reference.connected [Reference.alice; Reference.bob])).2 in
  Users w = [Reference.alice; <["role" := VStr "Developer"]> Reference.bob].
Proof. vm_compute. reflexivity. Qed.

Lemma UpdateUser_keeps_id_witness :
  let updatedUser : doc :=
    {[ "_id" := VStr "65a1b2c3d4e5f60718293a4c"; "role" := VStr "Developer" ]} in
  let w := Reference.connected [Reference.alice; Reference.bob] in
  exists d, Users w !! 1%nat = Some d
    /\ (<["role" := VStr "Developer"]> Reference.bob = d
        \/ <["role" := VStr "Developer"]> Reference.bob
           = apply_set (rest_without_id updatedUser).2 d).
Proof.
  intros updatedUser w.
  apply (proj1 (proj2 (UpdateUser_keeps_id updatedUser w)) 1%nat).
  vm_compute. reflexivity.
Defined.

(** * Part III: further properties of the code *)

(** ** The Persistence Gateway *)

Section GatewayMore.
Context `{Driver}.

(** A successful [connectToDatabase] leaves the handle set. *)
Lemma connected_after (w w' : World) :
  connectToDatabase w = (Return tt, w') -> _db w' = true.
Proof.
  unfold connectToDatabase. run. intros Hrun.
  destruct (_db w) eqn:Hdb.
  - by injection Hrun as <-.
  - destruct (env_missing (env_DB_URL w)); [discriminate |].
    destruct (env_missing (env_DB_NAME w)); [discriminate |].
    destruct (reachable w); [| discriminate].
    by injection Hrun as <-.
Qed.

(** X1: once [connectToDatabase] has succeeded the handle is set, and a
    further call returns at once: it sends nothing and leaves the process as
    it is.  The connection is made at most once. *)
Theorem connect_once (w w' : World) :
  connectToDatabase w = (Return tt, w') ->
  _db w' = true
  /\ connectToDatabase w' = (Return tt, w')
  /\ (_db w = false -> trace w' = trace w ++ ["connect"]).
Proof.
  unfold connectToDatabase. run. intros Hrun.
  destruct (_db w) eqn:Hdb.
  - injection Hrun as <-. rewrite Hdb.
    split; [reflexivity | split; [reflexivity | discriminate]].
  - destruct (env_missing (env_DB_URL w)); [discriminate |].
    destruct (env_missing (env_DB_NAME w)); [discriminate |].
    destruct (reachable w); [| discriminate].
    injection Hrun as <-. simpl. auto.
Qed.

(** X2: without a handle, [connectToDatabase] fails before any connection
    attempt when [DB_URL] is unset or empty, and, [DB_URL] being set, when
    [DB_NAME] is; when the server refuses the connection the error is the
    driver's own and the handle stays unset, so that the next call tries
    again. *)
Theorem connect_failures (w : World) :
  _db w = false ->
  (env_missing (env_DB_URL w) = true ->
     connectToDatabase w
     = (Throw (Error "DB_URL is not defined in environment variables"), w))
  /\ (env_missing (env_DB_URL w) = false -> env_missing (env_DB_NAME w) = true ->
     connectToDatabase w
     = (Throw (Error "DB_NAME is not defined in environment variables"), w))
  /\ (env_missing (env_DB_URL w) = false -> env_missing (env_DB_NAME w) = false ->
      reachable w = false ->
      connectToDatabase w = (Throw (DriverError ConnectionFailed), add_trace "connect" w)
      /\ _db (add_trace "connect" w) = false).
Proof.
  intros Hdb. unfold connectToDatabase. run. rewrite Hdb.
  split; [| split].
  - intros ->. reflexivity.
  - intros -> ->. reflexivity.
  - intros -> -> ->. simpl. auto.
Qed.

End GatewayMore.

(** ** GetAllUsers: every page *)

Section Pages.
Context `{Driver}.

(** [Math.ceil(x / s)] for a positive [s] is the least number of pages of
    [s] that hold [x] documents. *)
Lemma ceil_div_pages (x s : Z) :
  0 < s ->
  ceil_div (Fin x) (Fin s) = Fin (- (- x / s))
  /\ s * (- (- x / s) - 1) < x <= s * (- (- x / s)).
Proof.
  intros Hs. split.
  - unfold ceil_div. destruct (Z.eqb_spec s 0); [lia | reflexivity].
  - pose proof (Z.div_mod (- x) s ltac:(lia)).
    pose proof (Z.mod_pos_bound (- x) s Hs).
    nia.
Qed.

Lemma page_pipeline (m : match_doc) (sortBy : value) (docs : list doc) (n s k : Z) :
  0 <= k < 2 ^ 63 -> 0 < s < 2 ^ 63 ->
  run_pipeline
    (users_pipeline m (getSortOptions sortBy (VStr "user"))
       {| page_number := Fin n; page_size := Fin s; skip := Fin k; limit := Fin s |})
    docs
  = Return (take (Z.to_nat s) (drop (Z.to_nat k)
      (sort_docs (getSortOptions sortBy (VStr "user"))
         (List.filter (matches (ByMatch m)) docs)))).
Proof.
  intros Hk Hs. unfold users_pipeline.
  rewrite getSortOptions_user_nonempty. simpl.
  destruct (Z.leb_spec 0 k); [| lia].
  destruct (Z.ltb_spec k (2 ^ 63)); [| lia].
  destruct (Z.ltb_spec 0 s); [| lia].
  destruct (Z.ltb_spec s (2 ^ 63)); [| lia].
  reflexivity.
Qed.

(** What [GetAllUsers] returns for a positive page number and page size,
    where the arithmetic of the skip is exact. *)
Lemma GetAllUsers_page (p : list_params) (w : World) (n s : Z) :
  can_connect w = true ->
  num_or (parseInt (pageNumber p)) (Fin 1) = Fin n ->
  num_or (parseInt (pageSize p)) (Fin 5) = Fin s ->
  1 <= n -> 1 <= s < 2 ^ 53 -> (n - 1) * s < 2 ^ 53 ->
  let total := Z.of_nat (length
    (List.filter (matches (ByMatch (users_match (setHours_0 (clock w)) p))) (Users w))) in
  (GetAllUsers p w).1
  = Return {| users := take (Z.to_nat s) (drop (Z.to_nat ((n - 1) * s)) (ordered_matching p w));
              totalUsers := Fin total;
              totalPages := Fin (- (- total / s));
              pageNumber_out := Fin n;
              pageSize_out := Fin s |}.
Proof.
  intros Hc Hnum Hsize Hn Hs Hk total.
  destruct (connect_ok w Hc) as (w' & Hconn & Husers & Hclock & _).
  assert (H53 : 2 ^ 53 < 2 ^ 63) by reflexivity.
  unfold GetAllUsers, paginate.
  rewrite default_page_number, default_page_size, Hnum, Hsize.
  rewrite skip_exact by nia.
  unfold aggregate, countDocuments. run. rewrite Hconn. run.
  rewrite Hclock.
  unfold add_trace at 1. cbn [Users].
  rewrite Husers, page_pipeline by nia. cbn.
  rewrite Husers. fold total.
  destruct (ceil_div_pages total s ltac:(lia)) as [Hceil _].
  cbn in Hceil. rewrite Hceil. reflexivity.
Qed.


(** Cutting a list into [m] consecutive pieces of [s] gives it back, when
    the pieces reach its end. *)
Lemma pages_tile {A} (s m : nat) (l : list A) :
  (length l <= m * s)%nat ->
  concat (map (fun i => take s (drop (i * s) l)) (seq 0 m)) = l.
Proof.
  revert l. induction m as [|m IH]; intros l Hlen.
  - destruct l; [reflexivity | simpl in Hlen; lia].
  - simpl seq. rewrite <- seq_shift. cbn [map]. rewrite map_map. cbn [concat].
    rewrite Nat.mul_0_l, drop_0.
    transitivity (take s l ++ drop s l); [| apply take_drop].
    f_equal.
    rewrite <- (IH (drop s l)) by (rewrite length_drop; lia).
    f_equal. apply map_ext. intros i. rewrite drop_drop. do 2 f_equal; lia.
Qed.

(** Page [i + 1], asked for by its decimal numeral, is the piece that starts
    at [i * s]. *)
Lemma page_users_piece (p : list_params) (w : World) (s : Z) (i : nat) :
  can_connect w = true ->
  num_or (parseInt (pageSize p)) (Fin 5) = Fin s ->
  1 <= s < 2 ^ 53 -> Z.of_nat (S i) < 2 ^ 53 -> Z.of_nat i * s < 2 ^ 53 ->
  page_users p w (Z.of_nat (S i))
  = take (Z.to_nat s) (drop (i * Z.to_nat s) (ordered_matching p w)).
Proof.
  intros Hc Hsize Hs Hpage Hi. unfold page_users.
  assert (Hn : num_or (parseInt (pageNumber (at_page p (Z.of_nat (S i))))) (Fin 1)
               = Fin (Z.of_nat (S i))).
  { cbn [at_page pageNumber]. rewrite parseInt_decimal by lia.
    unfold num_or. cbn [truthy].
    destruct (Z.eqb_spec (Z.of_nat (S i)) 0); [lia | reflexivity]. }
  rewrite (GetAllUsers_page (at_page p (Z.of_nat (S i))) w (Z.of_nat (S i)) s Hc Hn Hsize);
    [| lia | exact Hs | nia].
  cbn [users].
  change (ordered_matching (at_page p (Z.of_nat (S i))) w) with (ordered_matching p w).
  do 2 f_equal. nia.
Qed.


End Pages.

(** X4: the pages tile the result, if the server puts the matching set in
    the same order for every request.  Each page is a request of its own,
    [server i] being the server as it answers the request for page [i + 1];
    the sort keys of a user listing need not tell all documents apart, and
    the order of documents with equal keys is the server's choice.  When
    every request finds the matching set in the one order [ordered], then
    for a page size [s >= 1] the pages 1 to [ceil (length ordered / s)] that
    [GetAllUsers] returns from one state, put one after the other, are
    [ordered]: no document is skipped and none comes twice. *)
Theorem GetAllUsers_pages_tile (server : nat -> Driver) (p : list_params) (w : World)
    (ordered : list doc) (s : Z) :
  (forall i, @ordered_matching (server i) p w = ordered) ->
  can_connect w = true ->
  num_or (parseInt (pageSize p)) (Fin 5) = Fin s ->
  1 <= s < 2 ^ 53 -> Z.of_nat (length ordered) < 2 ^ 53 ->
  let pages := - (- Z.of_nat (length ordered) / s) in
  concat (map (fun i => @page_users (server i) p w (Z.of_nat (S i)))
            (seq 0 (Z.to_nat pages)))
  = ordered.
Proof.
  intros Horder Hc Hsize Hs Htotal pages.
  pose proof (Z.div_mod (- Z.of_nat (length ordered)) s ltac:(lia)) as Hdiv.
  pose proof (Z.mod_pos_bound (- Z.of_nat (length ordered)) s ltac:(lia)) as Hmod.
  assert (Hpages : s * (pages - 1) < Z.of_nat (length ordered) <= s * pages)
    by (subst pages; nia).
  transitivity
    (concat (map (fun i => take (Z.to_nat s) (drop (i * Z.to_nat s) ordered))
               (seq 0 (Z.to_nat pages)))).
  - f_equal. apply map_ext_in. intros i Hi%in_seq.
    rewrite (@page_users_piece (server i) p w s i Hc Hsize Hs) by nia.
    by rewrite Horder.
  - apply pages_tile. nia.
Qed.

(** Where that fails: with page size 1 and two users of the same given name,
    a server that answers the request for page 2 with the two in the other
    order returns the user of page 1 again, and the other user is on no
    page. *)
Example pages_of_two_orders :
  let p := {| keywords := VUndefined; role := VUndefined; maxAge := VUndefined;
              minAge := VUndefined; sortBy := VUndefined;
              pageSize := VStr "1"; pageNumber := VUndefined |} in
  let w := Scenario.starting [Scenario.sam_hill; Scenario.sam_wood] in
  @page_users Reference.driver p w 1 = [Scenario.sam_hill]
  /\ @page_users Scenario.other_server p w 2 = [Scenario.sam_hill]
  /\ @page_users Reference.driver p w 2 = [Scenario.sam_wood].
Proof. split; [| split]; vm_compute; reflexivity. Qed.

(** ** When the database cannot be reached *)

Section Unreachable.
Context `{Driver}.

(** X6: a failure of [connectToDatabase] reaches the caller in two ways.
    [GetAllUsers] connects inside its [try] and wraps the error as
    "Failed to get users: ..."; [GetUserById] (for a valid identifier),
    [GetUserByEmail], [RegisterUser], [LoginUser], [UpdateUser] and
    [DeleteUser] connect before their [try] and let the error of the gateway
    through as it is.  None of them sends a request after the failure. *)
Theorem connection_failure_surfaces (w w' : World) (err : exn) :
  connectToDatabase w = (Throw err, w') ->
  (forall p, GetAllUsers p w
             = (Throw (Error ("Failed to get users: " +:+ message err)), w'))
  /\ (forall id, ObjectId_isValid id = true -> GetUserById id w = (Throw err, w'))
  /\ (forall email, GetUserByEmail email w = (Throw err, w'))
  /\ (forall user, RegisterUser user w = (Throw err, w'))
  /\ (forall email, LoginUser email w = (Throw err, w'))
  /\ (forall updatedUser, UpdateUser updatedUser w = (Throw err, w'))
  /\ (forall id, DeleteUser id w = (Throw err, w')).
Proof.
  intros Hfail.
  repeat split; intros;
    unfold GetAllUsers, GetUserById, GetUserByEmail, RegisterUser, LoginUser,
      UpdateUser, DeleteUser;
    try match goal with Hv : ObjectId_isValid _ = true |- _ => rewrite Hv end;
    run; rewrite Hfail; reflexivity.
Qed.

End Unreachable.

(** ** DeleteUser *)

Section Deleting.
Context `{Driver}.

Lemma deleteOne_run (f : query) (w : World) :
  deleteOne f w
  = match List.find (matches f) (Users w) with
    | None => (Return {| deletedCount := 0 |}, add_trace "deleteOne" w)
    | Some _ =>
        (Return {| deletedCount := 1 |},
         set_Users (delete_first (matches f) (Users w)) (add_trace "deleteOne" w))
    end.
Proof.
  unfold deleteOne. run. unfold modify_world. cbn [Users add_trace].
  destruct (List.find _ _); reflexivity.
Qed.

Lemma delete_first_length (p : doc -> bool) (docs : list doc) :
  length (delete_first p docs)
  = match List.find p docs with
    | Some _ => pred (length docs)
    | None => length docs
    end.
Proof.
  induction docs as [|d docs IH]; [reflexivity |].
  simpl. destruct (p d); [reflexivity |].
  simpl. rewrite IH. destruct (List.find p docs) eqn:Hfind; [| reflexivity].
  destruct docs; [discriminate | reflexivity].
Qed.

Lemma filter_delete_first (p : doc -> bool) (docs : list doc) :
  List.filter p (delete_first p docs) = tail (List.filter p docs).
Proof.
  induction docs as [|d docs IH]; [reflexivity |].
  simpl. destruct (p d) eqn:Hp; [reflexivity |].
  simpl. rewrite Hp. exact IH.
Qed.

Lemma filter_nil_none {A} (p : A -> bool) (l : list A) :
  List.filter p l = [] -> forall x, x ∈ l -> p x = false.
Proof.
  intros Hnil x Hx. destruct (p x) eqn:Hp; [| reflexivity].
  assert (In x (List.filter p l)) as Hin.
  { apply filter_In. split; [by apply list_elem_of_In | exact Hp]. }
  rewrite Hnil in Hin. destruct Hin.
Qed.

(** A valid identifier that no stored document matches gives [null]. *)
Lemma GetUserById_no_match (id : value) (o : ObjectId) (w : World) :
  ObjectId_isValid id = true -> ObjectId_new id = Some o ->
  can_connect w = true ->
  (forall d, d ∈ Users w -> matches (ById o) d = false) ->
  (GetUserById id w).1 = Return None.
Proof.
  intros Hvalid Hnew Hc Hnone.
  destruct (connect_ok w Hc) as (w' & Hconn & Husers & _).
  unfold GetUserById, construct_ObjectId. rewrite Hvalid, Hnew. run.
  rewrite Hconn. run. rewrite findOne_run. run.
  rewrite Husers, find_no_match by assumption. reflexivity.
Qed.

(** X7: whatever goes wrong inside [DeleteUser] once the connection is
    there, the caller sees the one message "Error deleting user"; for an
    identifier that is not valid no request is sent and the collection is
    left alone. *)
Theorem DeleteUser_masks_errors (id : value) (w : World) :
  can_connect w = true ->
  (forall err, (DeleteUser id w).1 = Throw err -> err = Error "Error deleting user")
  /\ (ObjectId_isValid id = false ->
      (DeleteUser id w).1 = Throw (Error "Error deleting user")
      /\ (DeleteUser id w).2 = (connectToDatabase w).2).
Proof.
  intros Hc. destruct (connect_ok w Hc) as (w' & Hconn & _).
  unfold DeleteUser. run. rewrite Hconn. run.
  destruct (ObjectId_isValid id); simpl.
  - split; [| discriminate].
    destruct (construct_ObjectId id) as [o | e]; simpl.
    + rewrite deleteOne_run. destruct (List.find _ _); simpl; discriminate.
    + by intros err [= <-].
  - split; [by intros err [= <-] | auto].
Qed.

(** A successful [DeleteUser] is one [deleteOne] on the connected process. *)
Lemma DeleteUser_returns (id : value) (w : World) (r : delete_result) :
  (DeleteUser id w).1 = Return r ->
  exists w' o, connectToDatabase w = (Return tt, w')
    /\ ObjectId_isValid id = true /\ ObjectId_new id = Some o
    /\ DeleteUser id w = deleteOne (ById o) w'.
Proof.
  unfold DeleteUser, construct_ObjectId. run.
  destruct (connectToDatabase w) as [[[] | e] w']; [| discriminate].
  destruct (ObjectId_isValid id); simpl; [| discriminate].
  destruct (ObjectId_new id) as [o |]; simpl; [| discriminate].
  intros Hrun. exists w', o. repeat split.
  rewrite deleteOne_run in *. destruct (List.find _ _); reflexivity.
Qed.

Lemma delete_first_none (p : doc -> bool) (docs : list doc) :
  List.find p docs = None -> delete_first p docs = docs.
Proof.
  induction docs as [|d docs IH]; [reflexivity |].
  simpl. destruct (p d); [discriminate |]. intros Hnone. f_equal. by apply IH.
Qed.

(** X8: [DeleteUser] removes at most one document, the first that matches
    the identifier: the documents that remain keep their order, and the
    collection shrinks by exactly [deletedCount], which is 0 or 1. *)
Theorem DeleteUser_removes_one (id : value) (w : World) (r : delete_result) :
  (DeleteUser id w).1 = Return r ->
  exists o, ObjectId_new id = Some o
    /\ Users (DeleteUser id w).2 = delete_first (matches (ById o)) (Users w)
    /\ (deletedCount r = 0 \/ deletedCount r = 1)
    /\ Z.of_nat (length (Users (DeleteUser id w).2)) + deletedCount r
       = Z.of_nat (length (Users w)).
Proof.
  intros Hrun.
  destruct (DeleteUser_returns id w r Hrun) as (w' & o & Hconn & _ & Hnew & Heq).
  pose proof (connect_frame w) as Hframe. rewrite Hconn in Hframe. simpl in Hframe.
  rewrite Heq in Hrun |- *. rewrite deleteOne_run in Hrun |- *.
  rewrite Hframe in Hrun |- *.
  pose proof (delete_first_length (matches (ById o)) (Users w)) as Hlen.
  pose proof (delete_first_none (matches (ById o)) (Users w)) as Hnone.
  exists o. split; [exact Hnew |].
  destruct (List.find (matches (ById o)) (Users w)) as [d |] eqn:Hfind;
    simpl in Hrun; injection Hrun as <-; cbn.
  - split; [reflexivity |]. split; [auto |]. rewrite Hlen.
    destruct (Users w); [discriminate | simpl; lia].
  - rewrite Hframe. split; [by rewrite Hnone |]. split; [auto | lia].
Qed.

(** X9: delete, then fetch.  When at most one stored document matches the
    identifier, a successful [DeleteUser] followed by [GetUserById] for the
    same identifier gives [null]. *)
Theorem DeleteUser_then_GetUserById (id : value) (o : ObjectId) (w : World)
    (r : delete_result) :
  ObjectId_new id = Some o ->
  (length (List.filter (matches (ById o)) (Users w)) <= 1)%nat ->
  (DeleteUser id w).1 = Return r ->
  (GetUserById id (DeleteUser id w).2).1 = Return None.
Proof.
  intros Hnew Hunique Hrun.
  destruct (DeleteUser_returns id w r Hrun) as (w' & o' & Hconn & Hvalid & Hnew' & Heq).
  assert (o' = o) as -> by congruence.
  pose proof (connect_frame w) as Hframe. rewrite Hconn in Hframe. simpl in Hframe.
  apply connected_after in Hconn as Hdb.
  assert (Hstate : _db (DeleteUser id w).2 = true
                   /\ Users (DeleteUser id w).2 = delete_first (matches (ById o)) (Users w)).
  { rewrite Heq, deleteOne_run, Hframe.
    pose proof (delete_first_none (matches (ById o)) (Users w)) as Hnone.
    destruct (List.find _ _); cbn; split; auto. by rewrite Hnone. }
  destruct Hstate as [Hdb' Husers].
  apply (GetUserById_no_match id o); try assumption.
  - unfold can_connect. rewrite Hdb'. reflexivity.
  - rewrite Husers. apply filter_nil_none.
    rewrite filter_delete_first.
    destruct (List.filter _ (Users w)) as [|a [|b l]]; try reflexivity.
    simpl in Hunique. lia.
Qed.

End Deleting.

(** ** UpdateUser, and reading back *)

Section Updating.
Context `{Driver}.

Lemma updateOne_run (f : query) (fields : doc) (w : World) :
  updateOne f fields w
  = match List.find (matches f) (Users w) with
    | None =>
        (Return {| matchedCount := 0; modifiedCount := 0 |}, add_trace "updateOne" w)
    | Some d =>
        if refuses_set fields d
        then (Throw (DriverError UpdateRefused), add_trace "updateOne" w)
        else
          (Return {| matchedCount := 1;
                     modifiedCount := if decide (apply_set fields d = d) then 0 else 1 |},
           set_Users (update_first (matches f) (apply_set fields) (Users w))
             (add_trace "updateOne" w))
    end.
Proof.
  unfold updateOne. run. unfold modify_world. cbn [Users add_trace].
  destruct (List.find _ _) as [d |]; [| reflexivity].
  destruct (refuses_set fields d); reflexivity.
Qed.

(** A successful [UpdateUser] is one [updateOne] on the connected process,
    with the payload that has lost its [_id]. *)
Lemma UpdateUser_returns (updatedUser : doc) (w : World) (r : update_result) :
  (UpdateUser updatedUser w).1 = Return r ->
  exists w' o, connectToDatabase w = (Return tt, w')
    /\ ObjectId_isValid (get "_id" updatedUser) = true
    /\ ObjectId_new (get "_id" updatedUser) = Some o
    /\ UpdateUser updatedUser w = updateOne (ById o) (delete "_id" updatedUser) w'.
Proof.
  unfold UpdateUser, rest_without_id, construct_ObjectId. run.
  destruct (connectToDatabase w) as [[[] | e] w']; [| discriminate].
  destruct (ObjectId_isValid _); simpl; [| discriminate].
  destruct (ObjectId_new _) as [o |]; simpl; [| discriminate].
  intros Hrun. exists w', o. repeat split.
  rewrite updateOne_run in *.
  destruct (List.find _ _) as [d |]; [destruct (refuses_set _ d); [discriminate |] |];
    reflexivity.
Qed.

(** What [GetUserById] returns on a process that can connect. *)
Lemma GetUserById_returns (id : value) (o : ObjectId) (w : World) :
  ObjectId_isValid id = true -> ObjectId_new id = Some o ->
  can_connect w = true ->
  (GetUserById id w).1
  = Return (delete "password" <$> List.find (matches (ById o)) (Users w)).
Proof.
  intros Hvalid Hnew Hc.
  destruct (connect_ok w Hc) as (w' & Hconn & Husers & _).
  unfold GetUserById, construct_ObjectId. rewrite Hvalid, Hnew. run.
  rewrite Hconn. run. rewrite findOne_run. run. rewrite Husers. reflexivity.
Qed.

Lemma find_update_first (p : doc -> bool) (g : doc -> doc) (docs : list doc) :
  (forall d, p (g d) = p d) ->
  List.find p (update_first p g docs) = g <$> List.find p docs.
Proof.
  intros Hkeep. induction docs as [|d docs IH]; [reflexivity |].
  simpl. destruct (p d) eqn:Hp; simpl.
  - rewrite Hkeep, Hp. reflexivity.
  - rewrite Hp. exact IH.
Qed.

(** X10: update, then fetch.  The payload names fields of the document
    itself (no key with a dot or a leading dollar sign, which the server
    reads otherwise), holds no Invalid Date, and has a field to set besides
    [_id]; matching [{ _id }] looks at [_id] only.  Then a call of
    [UpdateUser] that matched a document is read back by [GetUserById] for
    the same identifier: it returns that document with the fields of the
    payload written over it and without its password, so every field of the
    payload other than [_id] and [password] comes back with the value that
    was sent, or with null where [undefined] was sent. *)
Theorem UpdateUser_then_GetUserById (updatedUser : doc) (w : World) (r : update_result) :
  id_match_by_id ->
  plain_fields updatedUser = true -> sets_a_field updatedUser = true ->
  (UpdateUser updatedUser w).1 = Return r -> matchedCount r = 1 ->
  exists o d,
    ObjectId_new (get "_id" updatedUser) = Some o
    /\ List.find (matches (ById o)) (Users w) = Some d
    /\ (GetUserById (get "_id" updatedUser) (UpdateUser updatedUser w).2).1
       = Return (Some (delete "password" (apply_set (delete "_id" updatedUser) d)))
    /\ forall k v, k <> "_id" -> k <> "password" -> updatedUser !! k = Some v ->
         delete "password" (apply_set (delete "_id" updatedUser) d) !! k
         = Some (to_bson v).
Proof.
  intros Hbyid _ _ Hrun Hmatched.
  destruct (UpdateUser_returns updatedUser w r Hrun)
    as (w' & o & Hconn & Hvalid & Hnew & Heq).
  pose proof (connect_frame w) as Hframe. rewrite Hconn in Hframe. simpl in Hframe.
  apply connected_after in Hconn as Hdb.
  rewrite Heq in Hrun |- *. rewrite updateOne_run in Hrun |- *. rewrite Hframe in Hrun |- *.
  destruct (List.find (matches (ById o)) (Users w)) as [d |] eqn:Hfind;
    [destruct (refuses_set _ d); [discriminate Hrun |] |];
    simpl in Hrun; injection Hrun as <-; [| discriminate Hmatched].
  exists o, d. split; [exact Hnew |]. split; [exact Hfind |]. split.
  - rewrite (GetUserById_returns _ o) by (try assumption; unfold can_connect; cbn; by rewrite Hdb).
    cbn [snd Users set_Users].
    rewrite find_update_first, Hfind; [reflexivity |].
    intros d0. apply Hbyid. apply apply_set_keeps_id. apply lookup_delete_eq.
  - intros k v Hk Hpw Hkv.
    rewrite lookup_delete_ne by done.
    unfold apply_set. apply lookup_union_Some_l.
    by rewrite lookup_fmap, lookup_delete_ne, Hkv.
Qed.


End Updating.

(** ** Looking a user up by e-mail *)

(** *** [trim] and [toLowerCase] *)

Example trim_examples :
  trim "  a b  " = "a b"
  /\ trim (Scenario.no_break_space +:+ "Ann@Example.com" +:+ Scenario.no_break_space)
     = "Ann@Example.com"
  /\ trim_start " " = "" /\ trim_end "x" = "x".
Proof. vm_compute. repeat split. Qed.

Lemma trim_start_unfold (s : string) :
  trim_start s = match skip_white_space s with
                 | Some rest => trim_start rest
                 | None => s
                 end.
Proof.
  destruct s as [|a [|b [|c r3]]]; simpl; try reflexivity.
  - destruct (is_white_space a); reflexivity.
  - destruct (is_white_space a); [reflexivity |].
    destruct (is_white_space_2 a b); reflexivity.
  - destruct (is_white_space a); [reflexivity |].
    destruct (is_white_space_2 a b); [reflexivity |].
    destruct (is_white_space_3 a b c); reflexivity.
Qed.

Lemma app_cons_string (x : ascii) (a b : string) :
  String x a +:+ b = String x (a +:+ b).
Proof. reflexivity. Qed.

(** The white space a string starts with is a prefix of it. *)
Lemma skip_white_space_Some (s rest : string) :
  skip_white_space s = Some rest ->
  (String.length rest < String.length s)%nat
  /\ forall t, skip_white_space (s +:+ t) = Some (rest +:+ t).
Proof.
  destruct s as [|a [|b [|c r3]]]; cbn [skip_white_space]; try discriminate.
  - destruct (is_white_space a) eqn:Ea; [| discriminate].
    intros [= <-]. split; [simpl; lia |]. intros t.
    rewrite app_cons_string. cbn [skip_white_space]. by rewrite Ea.
  - destruct (is_white_space a) eqn:Ea.
    + intros [= <-]. split; [simpl; lia |]. intros t.
      rewrite !app_cons_string. cbn [skip_white_space]. by rewrite Ea.
    + destruct (is_white_space_2 a b) eqn:Eb; [| discriminate].
      intros [= <-]. split; [simpl; lia |]. intros t.
      rewrite !app_cons_string. cbn [skip_white_space]. by rewrite Ea, Eb.
  - destruct (is_white_space a) eqn:Ea.
    + intros [= <-]. split; [simpl; lia |]. intros t.
      rewrite !app_cons_string. cbn [skip_white_space]. by rewrite Ea.
    + destruct (is_white_space_2 a b) eqn:Eb.
      * intros [= <-]. split; [simpl; lia |]. intros t.
        rewrite !app_cons_string. cbn [skip_white_space]. by rewrite Ea, Eb.
      * destruct (is_white_space_3 a b c) eqn:Ec; [| discriminate].
        intros [= <-]. split; [simpl; lia |]. intros t.
        rewrite !app_cons_string. cbn [skip_white_space]. by rewrite Ea, Eb, Ec.
Qed.

(** Induction on the length of a string. *)
Lemma length_induction (P : string -> Prop) :
  (forall s, (forall t, (String.length t < String.length s)%nat -> P t) -> P s) ->
  forall s, P s.
Proof.
  intros Hstep s. remember (String.length s) as n eqn:Hn.
  revert s Hn. induction (lt_wf n) as [n _ IH]. intros s ->.
  apply Hstep. intros t Ht. by apply (IH (String.length t)).
Qed.

(** What [trim_start] returns does not start with white space. *)
Lemma trim_start_done (s : string) : skip_white_space (trim_start s) = None.
Proof.
  induction s as [s IH] using length_induction.
  rewrite trim_start_unfold. destruct (skip_white_space s) as [rest |] eqn:Hskip; [| exact Hskip].
  apply skip_white_space_Some in Hskip as [Hlen _]. by apply IH.
Qed.

Lemma trim_start_fixed (s : string) :
  skip_white_space s = None -> trim_start s = s.
Proof. intros Hs. rewrite trim_start_unfold. by rewrite Hs. Qed.

Lemma trim_start_idempotent (s : string) : trim_start (trim_start s) = trim_start s.
Proof. apply trim_start_fixed, trim_start_done. Qed.

(** White space in front of a string is trimmed with it. *)
Lemma trim_start_app (p t : string) :
  all_white_space p = true -> trim_start (p +:+ t) = trim_start t.
Proof.
  unfold all_white_space. revert t.
  induction p as [p IH] using length_induction. intros t Hp.
  apply String.eqb_eq in Hp.
  rewrite trim_start_unfold in Hp.
  destruct (skip_white_space p) as [rest |] eqn:Hskip.
  - apply skip_white_space_Some in Hskip as [Hlen Happ].
    rewrite trim_start_unfold, Happ. apply IH; [exact Hlen |].
    rewrite Hp. reflexivity.
  - subst p. reflexivity.
Qed.

Lemma all_white_space_app (p t : string) :
  all_white_space p = true -> all_white_space (p +:+ t) = all_white_space t.
Proof. intros Hp. unfold all_white_space. by rewrite trim_start_app. Qed.

(** [trim_end] cuts a suffix of white space off. *)
Lemma trim_end_split (s : string) :
  exists t, s = trim_end s +:+ t /\ all_white_space t = true.
Proof.
  induction s as [|c s (t & Hs & Ht)]; [by exists "" |].
  cbn [trim_end]. destruct (all_white_space (String c s)) eqn:Hall.
  - by exists (String c s).
  - exists t. split; [| exact Ht]. rewrite app_cons_string. by rewrite <- Hs.
Qed.

(** What [trim_end] returns does not end in white space. *)
Lemma trim_end_done (s : string) (c : ascii) (rest : string) :
  trim_end s = String c rest -> all_white_space (String c rest) = false.
Proof.
  revert c rest. induction s as [|x s IH]; intros c rest; [discriminate |].
  cbn [trim_end]. destruct (all_white_space (String x s)) eqn:Hall; [discriminate |].
  intros [= <- <-].
  destruct (all_white_space (String x (trim_end s))) eqn:Hall'; [| reflexivity].
  destruct (trim_end_split s) as (t & Hs & Ht).
  rewrite Hs in Hall at 1.
  change (String x (trim_end s +:+ t)) with (String x (trim_end s) +:+ t) in Hall.
  rewrite all_white_space_app in Hall by assumption. congruence.
Qed.

Lemma trim_end_idempotent (s : string) : trim_end (trim_end s) = trim_end s.
Proof.
  induction s as [|c s IH]; [reflexivity |].
  destruct (trim_end (String c s)) as [|x rest] eqn:Hend; [reflexivity |].
  pose proof (trim_end_done _ _ _ Hend) as Hnot.
  cbn [trim_end] in Hend |- *. rewrite Hnot.
  destruct (all_white_space (String c s)); [discriminate |].
  injection Hend as <- <-. by rewrite IH.
Qed.

(** Cutting the end off a string that does not start with white space leaves
    one that does not either. *)
Lemma trim_end_keeps_start (s : string) :
  skip_white_space s = None -> skip_white_space (trim_end s) = None.
Proof.
  intros Hs. destruct (skip_white_space (trim_end s)) as [rest |] eqn:Hskip; [| reflexivity].
  destruct (trim_end_split s) as (t & Hsplit & _).
  apply skip_white_space_Some in Hskip as [_ Happ].
  rewrite Hsplit, Happ in Hs. discriminate.
Qed.

Lemma trim_start_trim (s : string) : trim_start (trim s) = trim s.
Proof. apply trim_start_fixed, trim_end_keeps_start, trim_start_done. Qed.

Lemma trim_end_trim (s : string) : trim_end (trim s) = trim s.
Proof. apply trim_end_idempotent. Qed.

Lemma trim_idempotent (s : string) : trim (trim s) = trim s.
Proof. unfold trim at 1. by rewrite trim_start_trim, trim_end_trim. Qed.

Lemma lower_ascii_facts (c : ascii) :
  lower_ascii (lower_ascii c) = lower_ascii c
  /\ is_white_space (lower_ascii c) = is_white_space c
  /\ (byte (lower_ascii c) <? 128) = (byte c <? 128).
Proof. destruct c as [[] [] [] [] [] [] [] []]; repeat split; reflexivity. Qed.

Lemma toLowerCase_idempotent (s : string) : toLowerCase (toLowerCase s) = toLowerCase s.
Proof.
  induction s as [|c s IH]; [reflexivity |].
  simpl. rewrite IH. f_equal. apply lower_ascii_facts.
Qed.

(** In ASCII text the white space is one byte wide. *)
Lemma skip_white_space_ascii (c : ascii) (s : string) :
  (byte c <? 128) = true ->
  skip_white_space (String c s) = if is_white_space c then Some s else None.
Proof.
  intros Hc. cbn [skip_white_space]. destruct (is_white_space c); [reflexivity |].
  assert (H2 : forall b, is_white_space_2 c b = false).
  { intros b. unfold is_white_space_2. apply Z.ltb_lt in Hc.
    destruct (Z.eqb_spec (byte c) 194); [lia | reflexivity]. }
  assert (H3 : forall b d, is_white_space_3 c b d = false).
  { intros b d. unfold is_white_space_3. apply Z.ltb_lt in Hc.
    destruct (Z.eqb_spec (byte c) 225), (Z.eqb_spec (byte c) 226),
      (Z.eqb_spec (byte c) 227), (Z.eqb_spec (byte c) 239); first [lia | reflexivity]. }
  destruct s as [|b [|d s]]; [reflexivity | by rewrite H2 | by rewrite H2, H3].
Qed.

Lemma toLowerCase_trim_start (s : string) :
  ascii_only s = true -> toLowerCase (trim_start s) = trim_start (toLowerCase s).
Proof.
  induction s as [|c s IH]; [reflexivity |].
  cbn [ascii_only]. intros [Hc Hs]%andb_prop.
  rewrite (trim_start_unfold (String c s)), (trim_start_unfold (toLowerCase (String c s))).
  cbn [toLowerCase].
  rewrite !skip_white_space_ascii
    by (first [exact Hc | by rewrite (proj2 (proj2 (lower_ascii_facts c)))]).
  rewrite (proj1 (proj2 (lower_ascii_facts c))).
  destruct (is_white_space c); [by apply IH | reflexivity].
Qed.

Lemma all_white_space_lower (s : string) :
  ascii_only s = true -> all_white_space (toLowerCase s) = all_white_space s.
Proof.
  intros Hs. unfold all_white_space. rewrite <- toLowerCase_trim_start by assumption.
  destruct (trim_start s); reflexivity.
Qed.

Lemma toLowerCase_trim_end (s : string) :
  ascii_only s = true -> toLowerCase (trim_end s) = trim_end (toLowerCase s).
Proof.
  induction s as [|c s IH]; [reflexivity |].
  intros Hall. pose proof Hall as Hall'. cbn [ascii_only] in Hall'.
  apply andb_prop in Hall' as [_ Hs].
  change (toLowerCase (String c s)) with (String (lower_ascii c) (toLowerCase s)).
  cbn [trim_end].
  change (String (lower_ascii c) (toLowerCase s)) with (toLowerCase (String c s)).
  rewrite all_white_space_lower by assumption.
  destruct (all_white_space (String c s)); [reflexivity |].
  cbn [toLowerCase]. by rewrite IH.
Qed.

(** Lowering a trimmed ASCII string leaves it trimmed. *)
Lemma trim_toLowerCase_trim (s : string) :
  ascii_only (trim s) = true -> trim (toLowerCase (trim s)) = toLowerCase (trim s).
Proof.
  intros Hs. unfold trim at 1.
  rewrite <- toLowerCase_trim_start, trim_start_trim by assumption.
  rewrite <- toLowerCase_trim_end, trim_end_trim by assumption.
  reflexivity.
Qed.

(** Normalizing twice is normalizing once. *)
Lemma normalized_idempotent (s : string) :
  ascii_only (trim s) = true -> normalized (normalized s) = normalized s.
Proof.
  intros Hs. unfold normalized.
  rewrite trim_toLowerCase_trim by assumption. apply toLowerCase_idempotent.
Qed.

(** *** GetUserByEmail and LoginUser *)

Section ByEmail.
Context `{Driver}.

(** X12: [GetUserByEmail] ignores the white space around an e-mail, that of
    Unicode included, and the case of its ASCII letters.  For a string that
    is ASCII between the white space around it, looking it up and looking
    up its normalized form (trimmed, then lowered) are the same computation,
    and on a process that can connect the result is the first stored user
    whose [email] matches the normalized string. *)
Theorem GetUserByEmail_normalizes (s : string) (w : World) :
  ascii_only (trim s) = true ->
  GetUserByEmail (VStr s) w = GetUserByEmail (VStr (normalized s)) w
  /\ (can_connect w = true ->
      (GetUserByEmail (VStr s) w).1
      = Return (List.find (matches (ByEmail (VStr (normalized s)))) (Users w))).
Proof.
  intros Hascii. split.
  - unfold GetUserByEmail, clean_email.
    change (toLowerCase (trim (normalized s))) with (normalized (normalized s)).
    rewrite normalized_idempotent by assumption. reflexivity.
  - intros Hc. destruct (connect_ok w Hc) as (w' & Hconn & Husers & _).
    unfold GetUserByEmail, clean_email. run. rewrite Hconn. run.
    rewrite findOne_run. run. rewrite Husers.
    destruct (List.find _ _); reflexivity.
Qed.

(** X13: an e-mail that is not a string makes [GetUserByEmail] throw an
    error whose message starts with "Failed to get user by email: ", and no
    lookup is sent. *)
Theorem GetUserByEmail_not_a_string (email : value) (w : World) :
  can_connect w = true -> is_string email = false ->
  exists reason,
    GetUserByEmail email w
    = (Throw (Error ("Failed to get user by email: " +:+ reason)),
       (connectToDatabase w).2).
Proof.
  intros Hc Hs. destruct (connect_ok w Hc) as (w' & Hconn & _).
  unfold GetUserByEmail. run. rewrite Hconn. run.
  destruct email; try discriminate; simpl; eauto.
Qed.

(** X14: [LoginUser] looks the e-mail up exactly as it is given, without
    trimming or lowering it and whatever its type.  On an ASCII string that
    is trimmed and in lower case already it is the same computation as
    [GetUserByEmail]. *)
Theorem LoginUser_exact (s : string) (w : World) :
  ascii_only s = true -> normalized s = s ->
  LoginUser (VStr s) w = GetUserByEmail (VStr s) w
  /\ (can_connect w = true ->
      forall email,
        (LoginUser email w).1 = Return (List.find (matches (ByEmail email)) (Users w))).
Proof.
  intros _ Hnorm. split.
  - unfold LoginUser, GetUserByEmail, clean_email. fold (normalized s). rewrite Hnorm.
    run. destruct (connectToDatabase w) as [[[] | e] w']; [| reflexivity].
    rewrite findOne_run. run. destruct (List.find _ _); reflexivity.
  - intros Hc email. destruct (connect_ok w Hc) as (w' & Hconn & Husers & _).
    unfold LoginUser. run. rewrite Hconn. run.
    rewrite findOne_run. run. rewrite Husers.
    destruct (List.find _ _); reflexivity.
Qed.

End ByEmail.

(** ** Bug operations *)

Section Bugs.
Context `{Driver}.

Lemma updateOne_in_run (bugs : list doc) (f : query) (fields : doc) (w : World) :
  updateOne_in bugs f fields w
  = match List.find (matches f) bugs with
    | None =>
        (Return ({| matchedCount := 0; modifiedCount := 0 |}, bugs),
         add_trace "updateOne" w)
    | Some d =>
        if refuses_set fields d
        then (Throw (DriverError UpdateRefused), add_trace "updateOne" w)
        else
          (Return ({| matchedCount := 1;
                      modifiedCount := if decide (apply_set fields d = d) then 0 else 1 |},
                   update_first (matches f) (apply_set fields) bugs),
           add_trace "updateOne" w)
    end.
Proof.
  unfold updateOne_in. run. unfold modify_world.
  destruct (List.find _ _) as [d |]; [| reflexivity].
  destruct (refuses_set fields d); reflexivity.
Qed.


(** X16: [GetBugById] refuses an identifier that is not valid before it
    connects, with the process left as it was.  Past that check every
    failure, a refused connection included, reaches the caller as the one
    message "Error retrieving bug"; and on a process that can connect the
    result is the first stored bug that matches, whole, or [null]. *)
Theorem GetBugById_contract (id : value) (bugs : list doc) (w : World) :
  (ObjectId_isValid id = false ->
     GetBugById id bugs w = (Throw (Error "Invalid bug ID format"), w))
  /\ (ObjectId_isValid id = true ->
      forall err, (GetBugById id bugs w).1 = Throw err ->
                  err = Error "Error retrieving bug")
  /\ (forall o, ObjectId_isValid id = true -> ObjectId_new id = Some o ->
        can_connect w = true ->
        (GetBugById id bugs w).1 = Return (List.find (matches (ById o)) bugs)).
Proof.
  unfold GetBugById, construct_ObjectId, findOne_in. split; [| split].
  - intros ->. reflexivity.
  - intros -> err. run.
    destruct (connectToDatabase w) as [[[] | e] w']; simpl.
    + destruct (ObjectId_new id); simpl.
      * destruct (List.find _ _); discriminate.
      * by intros [= <-].
    + by intros [= <-].
  - intros o -> Hnew Hc. destruct (connect_ok w Hc) as (w' & Hconn & _).
    rewrite Hnew. run. rewrite Hconn. run.
    destruct (List.find _ _); reflexivity.
Qed.

(** X17: when the connection fails, the bug operations report it in three
    ways: [GetAllBugs] wraps the message as "Failed to get bugs: ...",
    [GetBugById] replaces it by "Error retrieving bug", and [UpdateBug] and
    [CloseBug] let the error through as it is. *)
Theorem bug_connection_failure (w w' : World) (err : exn) (bugs : list doc) :
  connectToDatabase w = (Throw err, w') ->
  GetAllBugs bugs w = (Throw (Error ("Failed to get bugs: " +:+ message err)), w')
  /\ (forall id, ObjectId_isValid id = true ->
        GetBugById id bugs w = (Throw (Error "Error retrieving bug"), w'))
  /\ (forall id fields, UpdateBug id fields bugs w = (Throw err, w'))
  /\ (forall id fields, CloseBug id fields bugs w = (Throw err, w')).
Proof.
  intros Hfail.
  repeat split; intros; unfold GetAllBugs, GetBugById, UpdateBug, CloseBug;
    try match goal with Hv : ObjectId_isValid _ = true |- _ => rewrite Hv end;
    run; rewrite Hfail; reflexivity.
Qed.

End Bugs.

(** ** getSortOptions: the shape of every result *)

(** X18: whatever the keyword and the type, the sort specification has no
    key twice and only the directions 1 and -1.  For the type ['bug'] its
    last key is always [createdOn], ascending for ['oldest'] and descending
    otherwise; for a type that is neither ['user'] nor ['bug'] it is
    empty. *)
Theorem getSortOptions_shape (sortBy type : value) :
  NoDup (map fst (getSortOptions sortBy type))
  /\ Forall (fun kd => kd.2 = 1 \/ kd.2 = -1) (getSortOptions sortBy type)
  /\ (strict_eq_str type "bug" = true ->
      exists front,
        getSortOptions sortBy type
        = front ++ [("createdOn", if strict_eq_str sortBy "oldest" then 1 else -1)])
  /\ (strict_eq_str type "user" = false -> strict_eq_str type "bug" = false ->
      getSortOptions sortBy type = []).
Proof.
  split_literal type "user"; [| split_literal type "bug"].
  - split_literal sortBy "givenName"; [shape_decided |].
    split_literal sortBy "familyName"; [shape_decided |].
    split_literal sortBy "role"; [shape_decided |].
    split_literal sortBy "newest"; [shape_decided |].
    split_literal sortBy "oldest"; [shape_decided |].
    shape_decided.
  - split_literal sortBy "title"; [shape_decided |].
    split_literal sortBy "classification"; [shape_decided |].
    split_literal sortBy "assignedToName"; [shape_decided |].
    split_literal sortBy "createdByName"; [shape_decided |].
    split_literal sortBy "newest"; [shape_decided |].
    split_literal sortBy "oldest"; [shape_decided |].
    shape_decided.
  - shape_decided.
Qed.

(** ** validRole *)

Lemma includes_elem (requiredRoles : list string) (role : string) :
  includes requiredRoles role = true <-> role ∈ requiredRoles.
Proof.
  unfold includes. rewrite existsb_exists. split.
  - intros (x & Hin & ->%String.eqb_eq). by apply list_elem_of_In.
  - intros Hin. exists role. split; [by apply list_elem_of_In | apply String.eqb_refl].
Qed.

(** X19: [validRole] hands the request on, unchanged, exactly when the role
    of the caller is a non-empty string among the required roles.
    Otherwise it answers 401 when the role is missing or empty and 403 when
    it is not listed, so that with an empty list of required roles no
    request gets through. *)
Theorem validRole_gate (requiredRoles : list string) (userRole : option string)
    (req : http_request) :
  (validRole requiredRoles userRole req = Next req
   <-> exists role, userRole = Some role /\ role <> "" /\ role ∈ requiredRoles)
  /\ (forall req', validRole requiredRoles userRole req = Next req' -> req' = req)
  /\ (forall res, validRole requiredRoles userRole req = Responded res ->
        (status res = 401 /\ (userRole = None \/ userRole = Some ""))
        \/ (status res = 403
            /\ exists role, userRole = Some role /\ role <> "" /\ role ∉ requiredRoles))
  /\ (requiredRoles = [] -> validRole requiredRoles userRole req <> Next req).
Proof.
  unfold validRole.
  destruct userRole as [role |].
  - destruct (String.eqb_spec role "") as [-> | Hne].
    + split; [| split; [| split]]; try done.
      * split; [done |]. by intros (r & [= <-] & Hr & _).
      * intros res [= <-]. left. auto.
    + destruct (includes requiredRoles role) eqn:Hinc; simpl.
      * apply includes_elem in Hinc.
        split; [| split; [| split]]; try done.
        -- split; [eauto | done].
        -- by intros req' [= <-].
        -- intros ->. by apply elem_of_nil in Hinc.
      * assert (role ∉ requiredRoles) as Hnot.
        { intros Hin%includes_elem. congruence. }
        split; [| split; [| split]]; try done.
        -- split; [done |]. by intros (r & [= <-] & _ & Hin).
        -- intros res [= <-]. right. eauto.
  - split; [| split; [| split]]; try done.
    + split; [done |]. by intros (r & [=] & _).
    + intros res [= <-]. left. auto.
Qed.

(** ** newId and validId on what is not a string *)

Section CodecMore.
Context `{Driver}.

(** X20: [newId] refuses every input that is not a non-empty string, also
    where the constructor of the driver would accept it (a missing value, a
    number, an identifier); [validId] has no such check and hands on
    whatever the constructor accepts, with the parameter replaced by the
    identifier and the rest of the request as it was. *)
Theorem newId_stricter_than_validId (v : value) (o : ObjectId) (paramName : string)
    (req : http_request) :
  truthy v && is_string v = false ->
  ObjectId_new v = Some o ->
  get paramName (params req) = v ->
  newId v = Throw (Error "Invalid ObjectId string")
  /\ validId paramName req = Next (with_param paramName (VId o) req).
Proof.
  intros Hv Hnew Hparam. split.
  - unfold newId.
    destruct (truthy v), (is_string v); try discriminate; reflexivity.
  - unfold validId, construct_ObjectId. rewrite Hparam, Hnew. reflexivity.
Qed.

End CodecMore.

(** ** The further properties on the concrete environment *)

Lemma Reference_insert_sorted_length (spec : sort_spec) (d : doc) (sorted : list doc) :
  length (Reference.insert_sorted spec d sorted) = S (length sorted).
Proof.
  induction sorted as [|e sorted IH]; [reflexivity |].
  simpl. destruct (Reference.before spec d e); simpl; [reflexivity |]. by rewrite IH.
Qed.

Lemma Reference_sort_keeps_length : sort_keeps_length.
Proof.
  intros spec docs. simpl. unfold Reference.sort_by.
  induction docs as [|d docs IH]; [reflexivity |].
  simpl. rewrite Reference_insert_sorted_length. by rewrite IH.
Qed.

Lemma Reference_id_match_by_id : id_match_by_id.
Proof.
  intros o d d' Hid. simpl. unfold get in Hid.
  destruct (d !! "_id") as [v |] eqn:Hd, (d' !! "_id") as [v' |] eqn:Hd';
    simpl in Hid; subst; repeat case_bool_decide; congruence.
Qed.

Lemma connect_once_witness :
  connectToDatabase (connectToDatabase (Scenario.starting [Reference.alice])).2
  = (Return tt, (connectToDatabase (Scenario.starting [Reference.alice])).2)
  /\ trace (connectToDatabase (Scenario.starting [Reference.alice])).2 = ["connect"].
Proof.
  destruct (connect_once (Scenario.starting [Reference.alice])
              (connectToDatabase (Scenario.starting [Reference.alice])).2 eq_refl)
    as (_ & Hagain & Htrace).
  split; [exact Hagain | exact (Htrace eq_refl)].
Defined.

Lemma connect_failures_witness :
  connectToDatabase Scenario.unconfigured
  = (Throw (Error "DB_NAME is not defined in environment variables"),
     Scenario.unconfigured).
Proof.
  apply (proj1 (proj2 (connect_failures Scenario.unconfigured eq_refl))); reflexivity.
Defined.


Lemma GetAllUsers_pages_tile_witness :
  page_users (Scenario.listing (VStr "3") VUndefined) (Scenario.starting Scenario.seven) 1
  ++ page_users (Scenario.listing (VStr "3") VUndefined) (Scenario.starting Scenario.seven) 2
  ++ page_users (Scenario.listing (VStr "3") VUndefined) (Scenario.starting Scenario.seven) 3
  = ordered_matching (Scenario.listing (VStr "3") VUndefined)
      (Scenario.starting Scenario.seven).
Proof.
  rewrite <- (GetAllUsers_pages_tile (fun _ => Reference.driver)
                (Scenario.listing (VStr "3") VUndefined)
                (Scenario.starting Scenario.seven)
                (ordered_matching (Scenario.listing (VStr "3") VUndefined)
                   (Scenario.starting Scenario.seven))
                3 (fun _ => eq_refl) eq_refl).
  - vm_compute. reflexivity.
  - vm_compute. reflexivity.
  - vm_compute. split; [discriminate | reflexivity].
  - vm_compute. reflexivity.
Defined.


Lemma connection_failure_surfaces_witness :
  (GetAllUsers (Scenario.listing VUndefined VUndefined) (Scenario.unreachable [])).1
  = Throw (Error "Failed to get users: connect ECONNREFUSED")
  /\ (GetUserByEmail (VStr "alice@example.com") (Scenario.unreachable [])).1
     = Throw (DriverError ConnectionFailed).
Proof.
  destruct (connection_failure_surfaces (Scenario.unreachable [])
              (connectToDatabase (Scenario.unreachable [])).2
              (DriverError ConnectionFailed) eq_refl)
    as (Hall & _ & Hemail & _).
  split.
  - rewrite Hall. reflexivity.
  - rewrite Hemail. reflexivity.
Defined.

Lemma DeleteUser_masks_errors_witness :
  (DeleteUser (VStr "nonsense") (Scenario.starting [Reference.alice])).1
  = Throw (Error "Error deleting user")
  /\ Users (DeleteUser (VStr "nonsense") (Scenario.starting [Reference.alice])).2
     = [Reference.alice].
Proof.
  destruct (proj2 (DeleteUser_masks_errors (H := Reference.driver) (VStr "nonsense")
                     (Scenario.starting [Reference.alice]) ltac:(vm_compute; reflexivity)) ltac:(vm_compute; reflexivity))
    as [Hthrow Hstate].
  split; [exact Hthrow |]. rewrite Hstate. reflexivity.
Defined.

Lemma DeleteUser_removes_one_witness :
  Users (DeleteUser (VStr "65a1b2c3d4e5f60718293a4b")
           (Scenario.starting [Reference.bob; Reference.alice; Reference.bob])).2
  = [Reference.bob; Reference.bob].
Proof.
  destruct (DeleteUser_removes_one (H := Reference.driver) (VStr "65a1b2c3d4e5f60718293a4b")
              (Scenario.starting [Reference.bob; Reference.alice; Reference.bob])
              {| deletedCount := 1 |} ltac:(vm_compute; reflexivity))
    as (o & Hnew & Husers & _).
  rewrite Husers. injection Hnew as <-. vm_compute. reflexivity.
Defined.

Lemma DeleteUser_then_GetUserById_witness :
  (GetUserById (VStr "65a1b2c3d4e5f60718293a4b")
     (DeleteUser (VStr "65a1b2c3d4e5f60718293a4b")
        (Scenario.starting [Reference.bob; Reference.alice])).2).1
  = Return None.
Proof.
  apply (DeleteUser_then_GetUserById (H := Reference.driver) (VStr "65a1b2c3d4e5f60718293a4b")
           {| toHexString := "65a1b2c3d4e5f60718293a4b" |}
           (Scenario.starting [Reference.bob; Reference.alice])
           {| deletedCount := 1 |}).
  - reflexivity.
  - vm_compute. lia.
  - reflexivity.
Defined.

Lemma UpdateUser_then_GetUserById_witness :
  let updatedUser : doc :=
    {[ "_id" := VStr "65a1b2c3d4e5f60718293a4c"; "role" := VStr "Developer" ]} in
  exists d,
    (GetUserById (VStr "65a1b2c3d4e5f60718293a4c")
       (UpdateUser updatedUser (Scenario.starting [Reference.alice; Reference.bob])).2).1
    = Return (Some d)
    /\ d !! "role" = Some (VStr "Developer").
Proof.
  intros updatedUser.
  destruct (UpdateUser_then_GetUserById (H := Reference.driver) updatedUser
              (Scenario.starting [Reference.alice; Reference.bob])
              {| matchedCount := 1; modifiedCount := 1 |}
              Reference_id_match_by_id ltac:(vm_compute; reflexivity)
              ltac:(vm_compute; reflexivity) ltac:(vm_compute; reflexivity)
              ltac:(vm_compute; reflexivity))
    as (o & d & _ & _ & Hget & Hfields).
  eexists. split; [exact Hget |].
  apply (Hfields "role" (VStr "Developer")); [done | done | reflexivity].
Defined.


Lemma GetUserByEmail_normalizes_witness :
  (GetUserByEmail (VStr "  Alice@Example.COM ") (Scenario.starting [Reference.bob; Reference.alice])).1
  = Return (Some Reference.alice).
Proof.
  rewrite (proj2 (GetUserByEmail_normalizes (H := Reference.driver) "  Alice@Example.COM "
                    (Scenario.starting [Reference.bob; Reference.alice])
                    ltac:(vm_compute; reflexivity))
             ltac:(vm_compute; reflexivity)).
  vm_compute. reflexivity.
Defined.

Lemma GetUserByEmail_not_a_string_witness :
  exists reason,
    GetUserByEmail (VNum (Fin 42)) (Scenario.starting [Reference.alice])
    = (Throw (Error ("Failed to get user by email: " +:+ reason)),
       (connectToDatabase (Scenario.starting [Reference.alice])).2).
Proof.
  apply (GetUserByEmail_not_a_string (H := Reference.driver) (VNum (Fin 42)) (Scenario.starting [Reference.alice]));
    reflexivity.
Defined.

Lemma LoginUser_exact_witness :
  LoginUser (VStr "bob@example.com") (Scenario.starting [Reference.alice; Reference.bob])
  = GetUserByEmail (VStr "bob@example.com") (Scenario.starting [Reference.alice; Reference.bob]).
Proof.
  apply (LoginUser_exact (H := Reference.driver) "bob@example.com"
           (Scenario.starting [Reference.alice; Reference.bob]));
    vm_compute; reflexivity.
Defined.

(** Where the two differ: an e-mail with capitals finds the user through
    [GetUserByEmail] and nobody through [LoginUser]. *)
Example LoginUser_is_case_sensitive :
  (LoginUser (VStr "Bob@Example.com") (Scenario.starting [Reference.alice; Reference.bob])).1
  = Return None
  /\ (GetUserByEmail (VStr "Bob@Example.com")
        (Scenario.starting [Reference.alice; Reference.bob])).1
     = Return (Some Reference.bob).
Proof. vm_compute. split; reflexivity. Qed.


(** The two messages of a refused update. *)
Example refused_update_messages :
  (UpdateBug (VStr "66b0c0ffee00000000000001") Scenario.renumbering [Scenario.crash_bug]
     (Scenario.starting [])).1
  = Throw (Error ("Failed to update bug: " +:+ Reference.text_of UpdateRefused))
  /\ (CloseBug (VStr "66b0c0ffee00000000000001") Scenario.renumbering [Scenario.crash_bug]
        (Scenario.starting [])).1
     = Throw (Error ("Failed to close bug: " +:+ Reference.text_of UpdateRefused)).
Proof. split; vm_compute; reflexivity. Qed.

Lemma GetBugById_contract_witness :
  (GetBugById (VStr "66b0c0ffee00000000000001") [Scenario.crash_bug]
     (Scenario.starting [])).1
  = Return (Some Scenario.crash_bug)
  /\ (GetBugById (VStr "66b0c0ffee00000000000001") [Scenario.crash_bug]
        (Scenario.unreachable [])).1
     = Throw (Error "Error retrieving bug").
Proof.
  destruct (GetBugById_contract (H := Reference.driver) (VStr "66b0c0ffee00000000000001") [Scenario.crash_bug]
              (Scenario.starting [])) as (_ & _ & Hfound).
  destruct (GetBugById_contract (H := Reference.driver) (VStr "66b0c0ffee00000000000001") [Scenario.crash_bug]
              (Scenario.unreachable [])) as (_ & Hmask & _).
  split.
  - rewrite (Hfound {| toHexString := "66b0c0ffee00000000000001" |}) by reflexivity.
    vm_compute. reflexivity.
  - assert (exists err, (GetBugById (VStr "66b0c0ffee00000000000001") [Scenario.crash_bug]
                           (Scenario.unreachable [])).1 = Throw err) as [err Hrun]
      by (eexists; vm_compute; reflexivity).
    rewrite Hrun. f_equal. apply Hmask; [reflexivity | exact Hrun].
Defined.

Lemma bug_connection_failure_witness :
  GetAllBugs [Scenario.crash_bug] (Scenario.unreachable [])
  = (Throw (Error "Failed to get bugs: connect ECONNREFUSED"),
     (connectToDatabase (Scenario.unreachable [])).2).
Proof.
  apply (proj1 (bug_connection_failure (H := Reference.driver) (Scenario.unreachable [])
                  (connectToDatabase (Scenario.unreachable [])).2
                  (DriverError ConnectionFailed) [Scenario.crash_bug] ltac:(vm_compute; reflexivity))).
Defined.

Lemma getSortOptions_shape_witness :
  exists front,
    getSortOptions (VStr "classification") (VStr "bug") = front ++ [("createdOn", -1)].
Proof.
  apply (proj1 (proj2 (proj2 (getSortOptions_shape (VStr "classification") (VStr "bug"))))).
  reflexivity.
Defined.

Lemma validRole_gate_witness :
  validRole ["Admin"; "Technical Manager"] (Some "Admin") {| params := ∅; body := ∅ |}
  = Next {| params := ∅; body := ∅ |}.
Proof.
  apply (proj1 (validRole_gate ["Admin"; "Technical Manager"] (Some "Admin")
                  {| params := ∅; body := ∅ |})).
  exists "Admin". split; [reflexivity |]. split; [discriminate | constructor].
Defined.

Lemma newId_stricter_than_validId_witness :
  newId VUndefined = Throw (Error "Invalid ObjectId string")
  /\ validId "bugId" {| params := ∅; body := ∅ |}
     = Next (with_param "bugId" (VId (Reference.generate 0)) {| params := ∅; body := ∅ |}).
Proof.
  apply (newId_stricter_than_validId (H := Reference.driver) VUndefined (Reference.generate 0) "bugId"
           {| params := ∅; body := ∅ |}); reflexivity.
Defined.
